(** * CarbonSecureAI: the dashboard's bookkeeping, embedded from [main2.py]

    The script keeps one session state (the widget values and the table of
    formations), derives a storage capacity from five inputs, appends
    formation records to the table, scores the table with an external
    classifier and bands the scores into three colours.

    Numbers are Python floats, that is IEEE 754 binary64; they are modelled
    by [spec_float] with the operations [SFmul] and [SFdiv] of the
    Standard Library at the binary64 precision and exponent range, so
    overflow, NaN and rounding are those of the program. *)

From Stdlib Require Import ZArith Bool.
From Stdlib Require Import Floats.SpecFloat Floats.PrimFloat Floats.FloatOps.
From stdpp Require Import gmap strings pretty list fin_maps.

#[local] Set Warnings "-inexact-float".
#[local] Open Scope string_scope.
#[local] Open Scope list_scope.

(** ** Binary64 numbers *)

Module F64.

Definition mul (x y : spec_float) : spec_float := SFmul prec emax x y.
Definition div (x y : spec_float) : spec_float := SFdiv prec emax x y.

(** Python's [x >= y]: false as soon as one side is NaN. *)
Definition ge (x y : spec_float) : bool := SFleb y x.
Definition lt (x y : spec_float) : bool := SFltb x y.
Definition eqb (x y : spec_float) : bool := SFeqb x y.

(** The literals of the script, read as Python reads them (to the
    nearest binary64 value). *)
Definition lit_0 : spec_float := Eval vm_compute in Prim2SF 0.0%float.
Definition lit_100 : spec_float := Eval vm_compute in Prim2SF 100%float.
Definition lit_1e6 : spec_float := Eval vm_compute in Prim2SF 1e6%float.
Definition lit_0_9 : spec_float := Eval vm_compute in Prim2SF 0.9%float.
Definition lit_0_5 : spec_float := Eval vm_compute in Prim2SF 0.5%float.

Definition is_zero (x : spec_float) : bool :=
  match x with S754_zero _ => true | _ => false end.

(** Not below zero: a zero of either sign, a positive number or plus
    infinity, that is [x >= 0.0] in Python. *)
Definition not_negative (x : spec_float) : bool :=
  match x with
  | S754_zero _ | S754_finite false _ _ | S754_infinity false => true
  | _ => false
  end.

Definition is_nan (x : spec_float) : bool :=
  match x with S754_nan => true | _ => false end.

Definition is_infinite (x : spec_float) : bool :=
  match x with S754_infinity _ => true | _ => false end.

(** A zero of either sign or a positive number: not negative, not
    infinite, not NaN. *)
Definition finite_not_negative (x : spec_float) : bool :=
  match x with
  | S754_zero _ | S754_finite false _ _ => true
  | _ => false
  end.

Definition not_negative_or_nan (x : spec_float) : bool :=
  not_negative x || is_nan x.

(** Zero or NaN: what a product with a zero factor can be. *)
Definition zero_or_nan (x : spec_float) : bool :=
  match x with S754_zero _ | S754_nan => true | _ => false end.

End F64.

Declare Scope f64_scope.
Delimit Scope f64_scope with f64.
Infix "*" := F64.mul : f64_scope.
Infix "/" := F64.div : f64_scope.

(** ** Python values and exceptions *)

(** What a widget or a table cell can hold: [None] (a segmented control
    with nothing selected), a string, an integer (the 0/1 flag codes) or
    a float. *)
Inductive value : Type :=
  | VNone
  | VStr (s : string)
  | VInt (z : Z)
  | VFloat (f : spec_float).

Inductive exn : Type :=
  | AttributeError (key : string)
  | KeyError (labels : list string)
  | TypeError
  | ValueError
  | IndexError
  | ModelError (msg : string).

(** A computation that may raise. *)
Definition result (A : Type) : Type := exn + A.

Definition ok {A} (a : A) : result A := inr a.
Definition raise {A} (e : exn) : result A := inl e.

#[global] Instance result_ret : MRet result := λ A a, inr a.
#[global] Instance result_bind : MBind result := λ A B k m,
  match m with
  | inl e => inl e
  | inr a => k a
  end.

(** Python's [==] between an integer and a float compares the two
    numbers exactly. *)
Definition float_eq_int (f : spec_float) (z : Z) : bool :=
  match f with
  | S754_zero _ => (z =? 0)%Z
  | S754_finite s m e =>
      let v := cond_Zopp s (Zpos m) in
      if (0 <=? e)%Z then (z =? v * 2 ^ e)%Z else (z * 2 ^ (- e) =? v)%Z
  | _ => false
  end.

(** Python's [a == b]. *)
Definition py_eq (a b : value) : bool :=
  match a, b with
  | VNone, VNone => true
  | VStr x, VStr y => String.eqb x y
  | VInt x, VInt y => (x =? y)%Z
  | VFloat x, VFloat y => F64.eqb x y
  | VInt x, VFloat y | VFloat y, VInt x => float_eq_int y x
  | _, _ => false
  end.

(** The truth value of [if v:]. *)
Definition py_truthy (v : value) : bool :=
  match v with
  | VNone => false
  | VStr s => negb (String.eqb s "")
  | VInt z => negb (z =? 0)%Z
  | VFloat f => negb (F64.is_zero f)
  end.

(** ** The table of formations (a pandas DataFrame)

    A frame is its ordered column index and its rows in index order; a
    row maps a column name to the cell. Cells are the Python values put
    in; the storage type pandas picks per column (an integer kept as the
    equal float in a column that also holds floats or NaN) is not
    modelled. *)
Record DataFrame : Type := mkFrame {
  columns : list string;
  rows : list (gmap string value)
}.

(** ** The session state

    [vals] holds the values stored under the widget keys; the frame stored
    under the key [formations] is kept apart because of its type. The
    script creates it (l.177-185) before any callback can run. *)
Record Session : Type := mkSession {
  vals : gmap string value;
  formations : DataFrame
}.

Definition set_val (k : string) (v : value) (st : Session) : Session :=
  mkSession (<[k := v]> (vals st)) (formations st).

(** [st.session_state.k]: raises when the key is absent. *)
Definition getattr (st : Session) (k : string) : result value :=
  match vals st !! k with
  | Some v => ok v
  | None => raise (AttributeError k)
  end.

(** [st.session_state.get(k, d)]. *)
Definition get (st : Session) (k : string) (d : value) : value :=
  default d (vals st !! k).

(** The arithmetic of [calculate_capacity] is applied to what the
    [number_input] widgets store, floats; anything else that is not a
    number makes Python raise [TypeError]. *)
Definition as_float (v : value) : result spec_float :=
  match v with
  | VFloat f => ok f
  | _ => raise TypeError
  end.

(** ** Frame operations used by the script *)

(** pandas' missing value. *)
Definition NaN : value := VFloat S754_nan.

Definition cell (r : gmap string value) (c : string) : value :=
  default NaN (r !! c).

(** A row laid out on the column index [cols]: the cells of [r] under
    these columns, NaN where [r] has none. *)
Definition reindex (cols : list string) (r : gmap string value)
  : gmap string value :=
  foldr (λ c acc, <[c := cell r c]> acc) ∅ cols.

(** [df.empty]: no column or no row. *)
Definition df_empty (df : DataFrame) : bool :=
  match columns df, rows df with
  | [], _ | _, [] => true
  | _, _ => false
  end.

(** [pd.DataFrame([d])] for a dict [d], given with its keys in insertion
    order. *)
Definition frame_of_record (d : list (string * value)) : DataFrame :=
  mkFrame (d.*1) [list_to_map d].

(** [pd.concat([a, b], ignore_index=True)]: the columns of [a] followed
    by those [b] adds, the rows of [a] followed by the rows of [b], and a
    fresh 0..n-1 index (the position in [rows]). *)
Definition concat (a b : DataFrame) : DataFrame :=
  let cols := (columns a ++ filter (λ c, c ∉ columns a) (columns b)) in
  mkFrame cols (reindex cols <$> (rows a ++ rows b)).

(** [df[cols]] for a list of labels. *)
Definition select_columns (df : DataFrame) (cols : list string)
  : result DataFrame :=
  match filter (λ c, c ∉ columns df) cols with
  | [] => ok (mkFrame cols (reindex cols <$> rows df))
  | missing => raise (KeyError missing)
  end.

(** [df[c] = vs] for an array [vs]: the length must be that of the index;
    an existing column is overwritten, a new one is added last. *)
Definition set_column (df : DataFrame) (c : string) (vs : list value)
  : result DataFrame :=
  if decide (length vs = length (rows df)) then
    ok (mkFrame
          (if decide (c ∈ columns df) then columns df
           else (columns df ++ [c]))
          (zip_with (λ r v, <[c := v]> r) (rows df) vs))
  else raise ValueError.

(** [df[c].tolist()]. *)
Definition column_tolist (df : DataFrame) (c : string) : result (list value) :=
  if decide (c ∈ columns df) then ok ((λ r, cell r c) <$> rows df)
  else raise (KeyError [c]).

(** [df[df[c] == v]]: the rows whose cell under [c] equals [v], in order. *)
Definition select_rows_eq (df : DataFrame) (c : string) (v : value)
  : result DataFrame :=
  if decide (c ∈ columns df) then
    ok (mkFrame (columns df) (filter (λ r, py_eq (cell r c) v = true) (rows df)))
  else raise (KeyError [c]).

(** [df.iloc[0]]: the first row, as a series over the columns. *)
Definition iloc0 (df : DataFrame) : result (list string * gmap string value) :=
  match rows df with
  | r :: _ => ok (columns df, r)
  | [] => raise IndexError
  end.

(** [row[c]] on a series. *)
Definition series_get (row : list string * gmap string value) (c : string)
  : result value :=
  if decide (c ∈ row.1) then ok (cell row.2 c) else raise (KeyError [c]).

(** ** Tab 2: the derived storage capacity (l.95-106) *)

Definition calculate_capacity (st : Session) : result Session :=
  porosity ← getattr st "porosity" ≫= as_float;
  let porosity_val := (porosity / F64.lit_100)%f64 in
  eff_factor ← getattr st "eff_factor" ≫= as_float;
  let eff_factor_val := (eff_factor / F64.lit_100)%f64 in
  area ← getattr st "area" ≫= as_float;
  thickness ← getattr st "thickness" ≫= as_float;
  co2_density ← getattr st "co2_density" ≫= as_float;
  let storage_capacity_calc :=
    (area * thickness * porosity_val * co2_density * eff_factor_val)%f64 in
  ok (set_val "storage_capacity"
        (VFloat (storage_capacity_calc / F64.lit_1e6)%f64) st).

(** The formula as the specification writes it:
    [area*thickness*(porosity/100)*co2_density*(eff/100)/1e6]. *)
Definition capacity_Mt (area thickness porosity co2_density eff : spec_float)
  : spec_float :=
  (area * thickness * (porosity / F64.lit_100) * co2_density
   * (eff / F64.lit_100) / F64.lit_1e6)%f64.

(** The values that [calculate_capacity] multiplies or divides further:
    the five inputs, the two fractions and the running products before
    the last factor. *)
Definition capacity_operands
    (area thickness porosity co2_density eff : spec_float)
  : list spec_float :=
  let porosity_val := (porosity / F64.lit_100)%f64 in
  let eff_factor_val := (eff / F64.lit_100)%f64 in
  [area; thickness; porosity; co2_density; eff;
   porosity_val; eff_factor_val;
   (area * thickness)%f64;
   (area * thickness * porosity_val)%f64;
   (area * thickness * porosity_val * co2_density)%f64].

(** A session whose Tab 2 inputs hold the given numbers and whose direct
    capacity field holds [direct]. *)
Definition tab2_inputs
    (direct area thickness porosity co2_density eff : spec_float) : Session :=
  mkSession
    (list_to_map
       [("storage_capacity", VFloat direct);
        ("area", VFloat area); ("thickness", VFloat thickness);
        ("porosity", VFloat porosity); ("co2_density", VFloat co2_density);
        ("eff_factor", VFloat eff)])
    (mkFrame [] []).

(** ** Tab 3: the value the repeated inputs start from (l.124-143)

    [tab2 if key_t3 not in st.session_state else st.session_state.key_t3]
    with [tab2 = st.session_state.get(key_t2, 0.0)]. *)
Definition tab3_value (st : Session) (key_t3 key_t2 : string) : result value :=
  let tab2 := get st key_t2 (VFloat F64.lit_0) in
  if decide (vals st !! key_t3 = None) then ok tab2 else getattr st key_t3.

(** ** Tab 5: the table and the "Add Formation" callback (l.177-210) *)

Definition formation_columns : list string :=
  ["Name"; "Depth (m)"; "P (MPa)"; "T (°C)";
   "CO2 Density (kg/m3)"; "Storage Capacity (Mt)";
   "Fault"; "Seal Thickness (m)"; "Reservoir Thickness (m)";
   "Stacked"; "Longitude"; "Latitude"].

(** The frame the script creates when the session has none (l.177-185). *)
Definition initial_formations : DataFrame := mkFrame formation_columns [].

(** The dict [new_entry] (l.192-205). *)
Definition new_entry (st : Session) (fault_code stacked_code : Z)
  : list (string * value) :=
  [("Name", get st "reservoir_name" (VStr ""));
   ("Depth (m)", get st "depth" (VFloat F64.lit_0));
   ("P (MPa)", get st "pressure" (VFloat F64.lit_0));
   ("T (°C)", get st "temperature" (VFloat F64.lit_0));
   ("CO2 Density (kg/m3)",
      get st "co2_density_t3" (get st "co2_density" (VFloat F64.lit_0)));
   ("Storage Capacity (Mt)", get st "storage_capacity" (VFloat F64.lit_0));
   ("Fault", VInt fault_code);
   ("Seal Thickness (m)", get st "seal_thickness" (VFloat F64.lit_0));
   ("Reservoir Thickness (m)",
      get st "thickness_t3" (get st "thickness" (VFloat F64.lit_0)));
   ("Stacked", VInt stacked_code);
   ("Longitude", get st "longitude" (VFloat F64.lit_0));
   ("Latitude", get st "latitude" (VFloat F64.lit_0))].

Definition add_current_formation (st : Session) : result Session :=
  faulted ← getattr st "faulted";
  let fault_code := if py_eq faulted (VStr "Yes") then 1%Z else 0%Z in
  stacked ← getattr st "stacked";
  let stacked_code := if py_eq stacked (VStr "Yes") then 1%Z else 0%Z in
  ok (mkSession (vals st)
        (concat (formations st)
           (frame_of_record (new_entry st fault_code stacked_code)))).

(** The override by an uploaded table (l.218-221); [uploaded] is what
    [pd.read_csv] made of the file, when there is one. *)
Definition upload_override (uploaded : option DataFrame) (st : Session)
  : Session :=
  match uploaded with
  | Some csv => mkSession (vals st) csv
  | None => st
  end.

(** The code the callback gives a flag: 1 for "Yes", 0 otherwise
    (l.189-190). *)
Definition flag_code (v : value) : Z :=
  if py_eq v (VStr "Yes") then 1%Z else 0%Z.

(** The plain numeric fields of a record and the widget keys they are read
    from. *)
Definition numeric_fields : list (string * string) :=
  [("Depth (m)", "depth"); ("P (MPa)", "pressure"); ("T (°C)", "temperature");
   ("Storage Capacity (Mt)", "storage_capacity");
   ("Seal Thickness (m)", "seal_thickness");
   ("Longitude", "longitude"); ("Latitude", "latitude")].

(** Widget values for the examples: a name, the Tab 2 density and
    thickness, a Tab 3 density but no Tab 3 thickness, a fault selected
    and nothing selected for Stacked. *)
Definition example_inputs (name : string) : gmap string value :=
  list_to_map
    [("reservoir_name", VStr name);
     ("co2_density", VFloat (Prim2SF 650));
     ("thickness", VFloat (Prim2SF 40));
     ("co2_density_t3", VFloat (Prim2SF 700));
     ("depth", VFloat (Prim2SF 1500));
     ("faulted", VStr "Yes"); ("stacked", VNone)].

(** Widget values with nothing entered: only the two segmented controls
    are registered, "No" selected for the fault and nothing for Stacked. *)
Definition blank_inputs : gmap string value :=
  list_to_map [("faulted", VStr "No"); ("stacked", VNone)].

(** ** Tab 6: scoring and the metrics of the selected formation (l.224-270) *)

(** What the view puts on the page. *)
Inductive shown : Type :=
  | ShownError (e : exn)
  | ShownInfo (text : string)
  | ShownMetrics (security capacity seal : string).

Definition feature_cols : list string :=
  ["Depth (m)"; "P (MPa)"; "T (°C)";
   "CO2 Density (kg/m3)"; "Storage Capacity (Mt)";
   "Fault"; "Seal Thickness (m)";
   "Reservoir Thickness (m)"; "Stacked"].

(** [proba[:, 1]]: the second entry of every row of the array. *)
Fixpoint column1 (proba : list (list spec_float)) : result (list spec_float) :=
  match proba with
  | [] => ok []
  | row :: rest =>
      match row !! 1%nat with
      | Some p => ps ← column1 rest; ok (p :: ps)
      | None => raise IndexError
      end
  end.

Section Tab6.

(** The pipeline unpickled from [best_pipeline.pkl]: its [predict_proba]
    takes the frame of features and returns one row of class
    probabilities per record, or raises. *)
Variable predict_proba : DataFrame → result (list (list spec_float)).

(** numpy's [round(2)] on one element. *)
Variable round2 : spec_float → spec_float.

(** Python's [f"{v:.2f}"]. *)
Variable format_2f : value → result string.

(** The body of the [try] (l.230-240). *)
Definition predict (df : DataFrame) : result DataFrame :=
  X_test ← select_columns df feature_cols;
  proba ← predict_proba X_test;
  p1 ← column1 proba;
  let preds := round2 <$> p1 in
  set_column df "Security" (VFloat <$> preds).

(** The scoring step of a view activation (l.227-242): nothing on an
    empty table; otherwise the scores are attached, or the exception is
    caught and shown. *)
Definition score_formations (st : Session) : Session * list shown :=
  if df_empty (formations st) then (st, [])
  else
    match predict (formations st) with
    | inr df => (mkSession (vals st) df, [])
    | inl e => (st, [ShownError e])
    end.

(** The three metrics of the selected formation (l.252-263). *)
Definition show_metrics (df : DataFrame) (selected_name : value)
  : result (list shown) :=
  if py_truthy selected_name then
    matching ← select_rows_eq df "Name" selected_name;
    row ← iloc0 matching;
    security ← series_get row "Security" ≫= format_2f;
    capacity ← series_get row "Storage Capacity (Mt)" ≫= format_2f;
    seal ← series_get row "Seal Thickness (m)" ≫= format_2f;
    ok [ShownMetrics security capacity seal]
  else ok [].

(** The whole view, for the option [selected_name] the select box
    returns. An exception after the scoring step is not caught by the
    script; the session keeps the state reached before it. *)
Definition tab6 (selected_name : value) (st : Session)
  : Session * result (list shown) :=
  if df_empty (formations st) then
    (st, ok [ShownInfo
               "No formations added yet. Please add formations in the Summary tab."])
  else
    let '(st', msgs) := score_formations st in
    (st',
     _ ← column_tolist (formations st') "Name";
     metrics ← show_metrics (formations st') selected_name;
     ok (msgs ++ metrics)).

End Tab6.

(** The rows of a frame as lists of cells in column order
    ([df.values]). *)
Definition frame_values (df : DataFrame) : list (list value) :=
  (λ r, (λ c, cell r c) <$> columns df) <$> rows df.

(** The feature vector of one record, as the specification lists it. *)
Definition feature_vector (r : gmap string value) : list value :=
  [cell r "Depth (m)"; cell r "P (MPa)"; cell r "T (°C)";
   cell r "CO2 Density (kg/m3)"; cell r "Storage Capacity (Mt)";
   cell r "Fault"; cell r "Seal Thickness (m)";
   cell r "Reservoir Thickness (m)"; cell r "Stacked"].

(** Stand-ins for the pipeline, used in the examples: one that gives
    every record the class probabilities [1 - p, p] and one that raises. *)
Definition constant_pipeline (q p : spec_float) (X : DataFrame)
  : result (list (list spec_float)) :=
  ok ((λ _, [q; p]) <$> rows X).

Definition failing_pipeline (X : DataFrame) : result (list (list spec_float)) :=
  raise (ModelError "X has 9 features, but the pipeline is expecting 12").

(** A formation row for the examples. *)
Definition example_row (name : string) (capacity seal : spec_float)
  : gmap string value :=
  list_to_map
    [("Name", VStr name); ("Depth (m)", VFloat (Prim2SF 1500));
     ("P (MPa)", VFloat (Prim2SF 15)); ("T (°C)", VFloat (Prim2SF 60));
     ("CO2 Density (kg/m3)", VFloat (Prim2SF 700));
     ("Storage Capacity (Mt)", VFloat capacity);
     ("Fault", VInt 0); ("Seal Thickness (m)", VFloat seal);
     ("Reservoir Thickness (m)", VFloat (Prim2SF 50));
     ("Stacked", VInt 1); ("Longitude", VFloat (Prim2SF 10));
     ("Latitude", VFloat (Prim2SF 50))].

(** A session whose table holds the given rows, already scored when
    [scored] is set (the rows then carry their Security cell). *)
Definition session_with (scored : bool) (rs : list (gmap string value))
  : Session :=
  mkSession ∅
    (mkFrame
       (if scored then (formation_columns ++ ["Security"])
        else formation_columns)
       rs).

(** A stand-in for the [.2f] formatting, used in the examples: it fails
    where Python fails (a string, [None]) and writes a number by its
    mantissa and binary exponent instead of its decimal digits. *)
Definition format_2f_stub (v : value) : result string :=
  match v with
  | VInt z => ok (pretty z)
  | VFloat (S754_zero _) => ok "0"
  | VFloat (S754_infinity s) => ok (if s then "-inf" else "inf")
  | VFloat S754_nan => ok "nan"
  | VFloat (S754_finite s m e) =>
      ok ((if s then "-" else "") +:+ pretty (Zpos m) +:+ "p" +:+ pretty e)
  | VStr _ => raise ValueError
  | VNone => raise TypeError
  end.

(** A scored formation row for the examples. *)
Definition scored_row (name : string) (capacity seal security : spec_float)
  : gmap string value :=
  <["Security" := VFloat security]> (example_row name capacity seal).

(** The metrics the view shows for a row. *)
Definition metrics_of (format_2f : value → result string)
    (r : gmap string value) : result (list shown) :=
  security ← format_2f (cell r "Security");
  capacity ← format_2f (cell r "Storage Capacity (Mt)");
  seal ← format_2f (cell r "Seal Thickness (m)");
  ok [ShownMetrics security capacity seal].

(** ** Tab 7: the map (l.277-292) *)

(** The guard of Tab 7 (l.277): the table is not empty and has a
    Security column. When it is false, Tab 7 shows its notice and builds no
    map (l.323-324). When it is true, Tab 7 goes on to build the map
    (l.278-321); that part is not modelled here and can still fail. *)
Definition tab7_guard (df : DataFrame) : bool :=
  negb (df_empty df) && bool_decide ("Security" ∈ columns df).

(** The colour of a map point (l.284-290). *)
Definition security_to_color (sec : spec_float) : list Z :=
  if F64.ge sec F64.lit_0_9 then [0; 200; 0]%Z
  else if F64.ge sec F64.lit_0_5 then [255; 165; 0]%Z
  else [200; 0; 0]%Z.

(** * Properties *)

(** ** Comparisons of binary64 numbers *)

Lemma SFcompare_antisym (x y : spec_float) :
  SFcompare y x = CompOpp <$> SFcompare x y.
Proof.
  destruct x as [sx|sx| |sx mx ex], y as [sy|sy| |sy my ey]; simpl;
    repeat match goal with s : bool |- _ => destruct s end;
    simpl; try reflexivity;
    rewrite (Z.compare_antisym ex ey);
    pose proof (Pos.compare_cont_antisym mx my Eq) as H; simpl in H;
    destruct (ex ?= ey)%Z; simpl; try reflexivity;
    rewrite <- H; reflexivity.
Qed.

Lemma lt_not_ge (x c : spec_float) :
  F64.lt x c = true → F64.ge x c = false.
Proof.
  unfold F64.lt, F64.ge, SFltb, SFleb.
  rewrite (SFcompare_antisym x c).
  destruct (SFcompare x c) as [[]|]; simpl; congruence.
Qed.

(** Below a positive number, hence not above a larger one with the same
    exponent. *)
Lemma lt_not_ge_larger (x : spec_float) (m1 m2 : positive) (e : Z) :
  (m1 < m2)%positive →
  F64.lt x (S754_finite false m1 e) = true →
  F64.ge x (S754_finite false m2 e) = false.
Proof.
  intros Hm. unfold F64.lt, F64.ge, SFltb, SFleb.
  destruct x as [sx|sx| |sx mx ex]; simpl; try congruence;
    destruct sx; simpl; try congruence.
  rewrite (Z.compare_antisym ex e).
  destruct (Z.compare_spec ex e) as [->|Hlt|Hgt]; simpl; try congruence.
  change (Pos.compare_cont Eq mx m1) with (Pos.compare mx m1).
  change (Pos.compare_cont Eq m2 mx) with (Pos.compare m2 mx).
  destruct (Pos.compare_spec mx m1) as [->|H1|H1]; try congruence.
  intros _.
  destruct (Pos.compare_spec m2 mx) as [H2|H2|H2]; try reflexivity; lia.
Qed.

Lemma lt_half_not_ge_0_9 (x : spec_float) :
  F64.lt x F64.lit_0_5 = true → F64.ge x F64.lit_0_9 = false.
Proof.
  apply (lt_not_ge_larger x 4503599627370496 8106479329266893 (-53)).
  reflexivity.
Qed.

(** C4: the three colour bands of [security_to_color]: at least 0.9 is
    green (secure), from 0.5 inclusive up to 0.9 exclusive is orange
    (moderate), below 0.5 is red (insecure); 0.95 is green, exactly 0.5 is
    orange and 0.49 is red. *)
Theorem security_to_color_bands :
  (∀ s, F64.ge s F64.lit_0_9 = true → security_to_color s = [0; 200; 0]%Z) ∧
  (∀ s, F64.ge s F64.lit_0_5 = true → F64.lt s F64.lit_0_9 = true →
        security_to_color s = [255; 165; 0]%Z) ∧
  (∀ s, F64.lt s F64.lit_0_5 = true → security_to_color s = [200; 0; 0]%Z) ∧
  security_to_color (Prim2SF 0.95%float) = [0; 200; 0]%Z ∧
  security_to_color (Prim2SF 0.5%float) = [255; 165; 0]%Z ∧
  security_to_color (Prim2SF 0.49%float) = [200; 0; 0]%Z.
Proof.
  split_and!.
  - intros s H. unfold security_to_color. rewrite H. reflexivity.
  - intros s H5 H9. unfold security_to_color.
    rewrite (lt_not_ge _ _ H9), H5. reflexivity.
  - intros s H. unfold security_to_color.
    rewrite (lt_half_not_ge_0_9 _ H), (lt_not_ge _ _ H). reflexivity.
  - vm_compute. reflexivity.
  - vm_compute. reflexivity.
  - vm_compute. reflexivity.
Qed.

(** ** The derived storage capacity *)

Lemma zero_or_nan_mul_l (x y : spec_float) :
  F64.zero_or_nan x = true → F64.zero_or_nan (x * y)%f64 = true.
Proof. destruct x, y; simpl; congruence. Qed.

Lemma zero_or_nan_mul_r (x y : spec_float) :
  F64.zero_or_nan y = true → F64.zero_or_nan (x * y)%f64 = true.
Proof. destruct x, y; simpl; congruence. Qed.

Lemma zero_or_nan_div_finite (x : spec_float) s m e :
  F64.zero_or_nan x = true → F64.zero_or_nan (x / S754_finite s m e)%f64 = true.
Proof. destruct x; simpl; congruence. Qed.

Lemma is_zero_zero_or_nan (x : spec_float) :
  F64.is_zero x = true → F64.zero_or_nan x = true.
Proof. destruct x; simpl; congruence. Qed.

Create HintDb f64.
#[local] Hint Resolve zero_or_nan_mul_l zero_or_nan_mul_r
  zero_or_nan_div_finite is_zero_zero_or_nan : f64.

Lemma capacity_Mt_zero_factor (area thickness porosity co2_density eff : spec_float) :
  F64.is_zero area = true ∨ F64.is_zero thickness = true ∨
  F64.is_zero porosity = true ∨ F64.is_zero co2_density = true ∨
  F64.is_zero eff = true →
  F64.zero_or_nan (capacity_Mt area thickness porosity co2_density eff) = true.
Proof.
  unfold capacity_Mt, F64.lit_100, F64.lit_1e6.
  intros [H|[H|[H|[H|H]]]]; auto 10 with f64.
Qed.

(** Rounding a mantissa that is not negative never gives NaN. *)
Lemma shr_1_nonneg (mrs : shr_record) :
  (0 ≤ shr_m mrs)%Z → (0 ≤ shr_m (shr_1 mrs))%Z.
Proof.
  destruct mrs as [m r s]. destruct m as [|[p|p|]|[p|p|]]; simpl; lia.
Qed.

Lemma iter_shr_1_nonneg (p : positive) (mrs : shr_record) :
  (0 ≤ shr_m mrs)%Z → (0 ≤ shr_m (SpecFloat.iter_pos shr_1 p mrs))%Z.
Proof.
  revert mrs. induction p as [p IH|p IH|]; intros mrs H; simpl.
  - apply IH, IH, shr_1_nonneg, H.
  - apply IH, IH, H.
  - apply shr_1_nonneg, H.
Qed.

Lemma shr_fexp_nonneg (m e : Z) (l : location) :
  (0 ≤ m)%Z → (0 ≤ shr_m (shr_fexp prec emax m e l).1)%Z.
Proof.
  intros H. unfold shr_fexp, shr.
  assert (H0 : (0 ≤ shr_m (shr_record_of_loc m l))%Z).
  { destruct l as [|[]]; exact H. }
  destruct (fexp prec emax (Zdigits2 m + e) - e)%Z; simpl; try exact H0.
  apply iter_shr_1_nonneg, H0.
Qed.

Lemma round_nearest_even_nonneg (m : Z) (l : location) :
  (0 ≤ m)%Z → (0 ≤ round_nearest_even m l)%Z.
Proof.
  intros H. destruct l as [|[]]; simpl; try lia.
  destruct (Z.even m); lia.
Qed.

Lemma binary_round_aux_not_nan (s : bool) (m e : Z) (l : location) :
  (0 ≤ m)%Z → binary_round_aux prec emax s m e l ≠ S754_nan.
Proof.
  intros H. unfold binary_round_aux.
  pose proof (shr_fexp_nonneg m e l H) as H1.
  destruct (shr_fexp prec emax m e l) as [mrs' e']. simpl in H1.
  pose proof (shr_fexp_nonneg _ e' loc_Exact
                (round_nearest_even_nonneg _ (loc_of_shr_record mrs') H1))
    as H2.
  destruct (shr_fexp prec emax _ e' loc_Exact) as [mrs'' e'']. simpl in H2.
  destruct (shr_m mrs''); try discriminate.
  - destruct (e'' <=? emax - prec)%Z; discriminate.
  - lia.
Qed.

Lemma div_core_nonneg (m1 : positive) (e1 : Z) (m2 : positive) (e2 : Z) :
  (0 ≤ (SFdiv_core_binary prec emax (Zpos m1) e1 (Zpos m2) e2).1.1)%Z.
Proof.
  unfold SFdiv_core_binary.
  set (s := (e1 - e2 - _)%Z).
  set (m' := match s with
             | Zpos _ => Z.shiftl (Zpos m1) s
             | Z0 => Zpos m1
             | Zneg _ => 0%Z
             end).
  assert (Hm : (0 ≤ m')%Z).
  { unfold m'. destruct s; try lia. apply Z.shiftl_nonneg. lia. }
  destruct (Z.div_eucl m' (Zpos m2)) as [q r] eqn:E. simpl.
  assert (q = (m' / Zpos m2)%Z) as ->
    by (unfold Z.div; rewrite E; reflexivity).
  apply Z.div_pos; lia.
Qed.

Lemma binary_round_aux_sign_of (s : bool) (m e : Z) (l : location) :
  match binary_round_aux prec emax s m e l with
  | S754_zero s' | S754_infinity s' | S754_finite s' _ _ => s' = s
  | S754_nan => True
  end.
Proof.
  unfold binary_round_aux.
  destruct (shr_fexp prec emax m e l) as [mrs' e'].
  destruct (shr_fexp prec emax _ e' loc_Exact) as [mrs'' e''].
  destruct (shr_m mrs''); [done| |done].
  by destruct (e'' <=? emax - prec)%Z.
Qed.

Lemma binary_round_aux_finite_not_negative (m e : Z) (l : location) :
  (0 ≤ m)%Z →
  F64.is_infinite (binary_round_aux prec emax false m e l) = false →
  F64.finite_not_negative (binary_round_aux prec emax false m e l) = true.
Proof.
  intros Hm Hinf.
  pose proof (binary_round_aux_not_nan false m e l Hm) as Hnan.
  pose proof (binary_round_aux_sign_of false m e l) as Hs.
  destruct (binary_round_aux prec emax false m e l); simpl in *;
    try done. by subst.
Qed.

Lemma ge_zero_finite_not_negative (x : spec_float) :
  F64.ge x F64.lit_0 = true → F64.is_infinite x = false →
  F64.finite_not_negative x = true.
Proof. by destruct x as [[]|[]| |[] m e]. Qed.

Lemma mul_finite_not_negative (x y : spec_float) :
  F64.finite_not_negative x = true → F64.finite_not_negative y = true →
  F64.is_infinite (x * y)%f64 = false →
  F64.finite_not_negative (x * y)%f64 = true.
Proof.
  destruct x as [sx|[]| |[] mx ex], y as [sy|[]| |[] my ey];
    try done; intros _ _; unfold F64.mul, SFmul; cbn [xorb].
  apply binary_round_aux_finite_not_negative. lia.
Qed.

Lemma div_finite_not_negative (x : spec_float) (m : positive) (e : Z) :
  F64.finite_not_negative x = true →
  F64.is_infinite (x / S754_finite false m e)%f64 = false →
  F64.finite_not_negative (x / S754_finite false m e)%f64 = true.
Proof.
  destruct x as [sx|[]| |[] mx ex]; try done; intros _.
  unfold F64.div, SFdiv.
  pose proof (div_core_nonneg mx ex m e) as Hq.
  destruct (SFdiv_core_binary prec emax (Z.pos mx) ex (Z.pos m) e)
    as [[mz ez] lz].
  cbn [xorb]. by apply binary_round_aux_finite_not_negative.
Qed.

Lemma mul_zero_l (x y : spec_float) :
  F64.is_zero x = true → F64.finite_not_negative y = true →
  F64.is_zero (x * y)%f64 = true.
Proof. by destruct x, y as [sy|[]| |[] my ey]. Qed.

Lemma mul_zero_r (x y : spec_float) :
  F64.finite_not_negative x = true → F64.is_zero y = true →
  F64.is_zero (x * y)%f64 = true.
Proof. by destruct x as [sx|[]| |[] mx ex], y. Qed.

Lemma div_zero_finite (x : spec_float) (s : bool) (m : positive) (e : Z) :
  F64.is_zero x = true → F64.is_zero (x / S754_finite s m e)%f64 = true.
Proof. by destruct x. Qed.

Lemma is_zero_finite_not_negative (x : spec_float) :
  F64.is_zero x = true → F64.finite_not_negative x = true.
Proof. by destruct x. Qed.

(** With factors that are not negative and no infinity on the way, a
    zero factor makes the capacity zero. *)
Lemma capacity_Mt_zero_exact
    (area thickness porosity co2_density eff : spec_float) :
  F64.ge area F64.lit_0 = true →
  F64.ge thickness F64.lit_0 = true →
  F64.ge porosity F64.lit_0 = true →
  F64.ge co2_density F64.lit_0 = true →
  F64.ge eff F64.lit_0 = true →
  Forall (λ x, F64.is_infinite x = false)
    (capacity_operands area thickness porosity co2_density eff) →
  F64.is_zero area = true ∨ F64.is_zero thickness = true ∨
  F64.is_zero porosity = true ∨ F64.is_zero co2_density = true ∨
  F64.is_zero eff = true →
  F64.is_zero (capacity_Mt area thickness porosity co2_density eff) = true.
Proof.
  intros Na Nt Np Nc Ne Hops Hzero.
  unfold capacity_operands in Hops.
  repeat match goal with
         | H : Forall _ (_ :: _) |- _ =>
             apply Forall_cons in H as [? H]
         end.
  clear Hops. unfold capacity_Mt.
  unfold F64.lit_100, F64.lit_1e6 in *.
  set (porosity_val := (porosity / _)%f64) in *.
  set (eff_factor_val := (eff / _)%f64) in *.
  assert (Fa := ge_zero_finite_not_negative area Na ltac:(done)).
  assert (Ft := ge_zero_finite_not_negative thickness Nt ltac:(done)).
  assert (Fp := ge_zero_finite_not_negative porosity Np ltac:(done)).
  assert (Fc := ge_zero_finite_not_negative co2_density Nc ltac:(done)).
  assert (Fe := ge_zero_finite_not_negative eff Ne ltac:(done)).
  assert (Fq1 : F64.finite_not_negative porosity_val = true)
    by (by apply div_finite_not_negative).
  assert (Fq2 : F64.finite_not_negative eff_factor_val = true)
    by (by apply div_finite_not_negative).
  assert (F1 : F64.finite_not_negative (area * thickness)%f64 = true)
    by (by apply mul_finite_not_negative).
  assert (F2 : F64.finite_not_negative
                 (area * thickness * porosity_val)%f64 = true)
    by (by apply mul_finite_not_negative).
  assert (F3 : F64.finite_not_negative
                 (area * thickness * porosity_val * co2_density)%f64 = true)
    by (by apply mul_finite_not_negative).
  apply div_zero_finite.
  destruct Hzero as [Z|[Z|[Z|[Z|Z]]]].
  - apply mul_zero_l; [|done]. apply mul_zero_l; [|done].
    apply mul_zero_l; [|done]. by apply mul_zero_l.
  - apply mul_zero_l; [|done]. apply mul_zero_l; [|done].
    apply mul_zero_l; [|done]. by apply mul_zero_r.
  - apply mul_zero_l; [|done]. apply mul_zero_l; [|done].
    apply mul_zero_r; [done|]. by apply div_zero_finite.
  - apply mul_zero_l; [|done]. by apply mul_zero_r.
  - apply mul_zero_r; [done|]. by apply div_zero_finite.
Qed.

Lemma calculate_capacity_eq (st : Session)
    (area thickness porosity co2_density eff : spec_float) :
  vals st !! "area" = Some (VFloat area) →
  vals st !! "thickness" = Some (VFloat thickness) →
  vals st !! "porosity" = Some (VFloat porosity) →
  vals st !! "co2_density" = Some (VFloat co2_density) →
  vals st !! "eff_factor" = Some (VFloat eff) →
  calculate_capacity st =
    ok (set_val "storage_capacity"
          (VFloat (capacity_Mt area thickness porosity co2_density eff)) st).
Proof.
  intros Ha Ht Hp Hc He.
  unfold calculate_capacity, getattr.
  rewrite Ha, Ht, Hp, Hc, He. reflexivity.
Qed.

(** C1, as the code has it: the calculate action stores
    [area*thickness*(porosity/100)*co2_density*(eff/100)/1e6] (binary64
    arithmetic, left to right) as the storage capacity, whatever was
    entered there before; 1e6, 50, 20, 700, 60 give exactly 4200.0; with a
    zero factor the action does not fail, and when the inputs are not
    negative and no infinity is met on the way (no infinite input, no
    fraction or running product that is infinite) the capacity is zero;
    without that proviso it is zero or NaN. *)
Theorem calculate_capacity_stores_formula (st : Session)
    (area thickness porosity co2_density eff : spec_float) :
  vals st !! "area" = Some (VFloat area) →
  vals st !! "thickness" = Some (VFloat thickness) →
  vals st !! "porosity" = Some (VFloat porosity) →
  vals st !! "co2_density" = Some (VFloat co2_density) →
  vals st !! "eff_factor" = Some (VFloat eff) →
  ∃ st',
    calculate_capacity st = ok st' ∧
    vals st' !! "storage_capacity" =
      Some (VFloat (capacity_Mt area thickness porosity co2_density eff)) ∧
    (∀ k, k ≠ "storage_capacity" → vals st' !! k = vals st !! k) ∧
    formations st' = formations st ∧
    capacity_Mt (Prim2SF 1e6) (Prim2SF 50) (Prim2SF 20) (Prim2SF 700)
      (Prim2SF 60) = Prim2SF 4200.0 ∧
    (F64.is_zero area = true ∨ F64.is_zero thickness = true ∨
     F64.is_zero porosity = true ∨ F64.is_zero co2_density = true ∨
     F64.is_zero eff = true →
     (F64.ge area F64.lit_0 = true →
      F64.ge thickness F64.lit_0 = true →
      F64.ge porosity F64.lit_0 = true →
      F64.ge co2_density F64.lit_0 = true →
      F64.ge eff F64.lit_0 = true →
      Forall (λ x, F64.is_infinite x = false)
        (capacity_operands area thickness porosity co2_density eff) →
      F64.is_zero (capacity_Mt area thickness porosity co2_density eff)
      = true) ∧
     F64.zero_or_nan (capacity_Mt area thickness porosity co2_density eff)
     = true).
Proof.
  intros Ha Ht Hp Hc He.
  eexists. split; [by apply calculate_capacity_eq|].
  split_and!.
  - apply lookup_insert_eq.
  - intros k Hk. simpl. by rewrite lookup_insert_ne.
  - reflexivity.
  - vm_compute. reflexivity.
  - intros Hzero. split.
    + intros Na Nt Np Nc Ne Hops. by apply capacity_Mt_zero_exact.
    + by apply capacity_Mt_zero_factor.
Qed.

Lemma calculate_capacity_stores_formula_witness :
  (∃ st',
     calculate_capacity
       (tab2_inputs (Prim2SF 12.5) (Prim2SF 1e6) (Prim2SF 50) (Prim2SF 20)
          (Prim2SF 700) (Prim2SF 60)) = ok st' ∧
     vals st' !! "storage_capacity" = Some (VFloat (Prim2SF 4200.0))) ∧
  (∃ st' c,
     calculate_capacity
       (tab2_inputs (Prim2SF 12.5) (Prim2SF 1e6) (Prim2SF 50) (Prim2SF 0)
          (Prim2SF 700) (Prim2SF 60)) = ok st' ∧
     vals st' !! "storage_capacity" = Some (VFloat c) ∧
     F64.is_zero c = true).
Proof.
  split.
  - destruct (calculate_capacity_stores_formula
                (tab2_inputs (Prim2SF 12.5) (Prim2SF 1e6) (Prim2SF 50)
                   (Prim2SF 20) (Prim2SF 700) (Prim2SF 60))
                (Prim2SF 1e6) (Prim2SF 50) (Prim2SF 20) (Prim2SF 700)
                (Prim2SF 60))
      as (st' & Hrun & Hcap & _ & _ & Hex & _);
      [reflexivity | reflexivity | reflexivity | reflexivity | reflexivity |].
    exists st'. split; [exact Hrun|].
    rewrite Hcap, Hex. reflexivity.
  - destruct (calculate_capacity_stores_formula
                (tab2_inputs (Prim2SF 12.5) (Prim2SF 1e6) (Prim2SF 50)
                   (Prim2SF 0) (Prim2SF 700) (Prim2SF 60))
                (Prim2SF 1e6) (Prim2SF 50) (Prim2SF 0) (Prim2SF 700)
                (Prim2SF 60))
      as (st' & Hrun & Hcap & _ & _ & _ & Hzero);
      [reflexivity | reflexivity | reflexivity | reflexivity | reflexivity |].
    exists st', (capacity_Mt (Prim2SF 1e6) (Prim2SF 50) (Prim2SF 0)
                   (Prim2SF 700) (Prim2SF 60)).
    split; [exact Hrun|]. split; [exact Hcap|].
    refine (proj1 (Hzero _) _ _ _ _ _ _).
    + right. right. left. reflexivity.
    + reflexivity.
    + reflexivity.
    + reflexivity.
    + reflexivity.
    + reflexivity.
    + vm_compute. repeat constructor.
Defined.

(** C1, as stated, fails: area = thickness = 1e200, porosity = 0,
    co2_density = 700, eff = 60 are non-negative, one factor is zero, and
    the stored capacity is NaN, not zero. *)
Lemma calculate_capacity_zero_factor_nan :
  let st := tab2_inputs (Prim2SF 0) (Prim2SF 1e200) (Prim2SF 1e200)
              (Prim2SF 0) (Prim2SF 700) (Prim2SF 60) in
  F64.ge (Prim2SF 1e200) F64.lit_0 = true ∧
  F64.ge (Prim2SF 0) F64.lit_0 = true ∧
  F64.ge (Prim2SF 700) F64.lit_0 = true ∧
  F64.ge (Prim2SF 60) F64.lit_0 = true ∧
  F64.is_zero (Prim2SF 0) = true ∧
  calculate_capacity st = ok (set_val "storage_capacity" (VFloat S754_nan) st) ∧
  F64.is_zero S754_nan = false.
Proof. vm_compute. repeat split. Qed.

(** ** Frames *)

Lemma lookup_reindex (cols : list string) (r : gmap string value) (c : string) :
  reindex cols r !! c = if decide (c ∈ cols) then Some (cell r c) else None.
Proof.
  induction cols as [|c' cols IH]; simpl.
  - rewrite lookup_empty. destruct (decide (c ∈ [])) as [Hin|]; [|done].
    by apply elem_of_nil in Hin.
  - destruct (decide (c' = c)) as [->|Hne].
    + rewrite lookup_insert_eq.
      destruct (decide (c ∈ c :: cols)) as [|Hn]; [done|].
      destruct Hn. by left.
    + rewrite lookup_insert_ne by done. rewrite IH.
      destruct (decide (c ∈ cols)) as [Hin|Hin],
               (decide (c ∈ c' :: cols)) as [Hin'|Hin']; try done.
      * destruct Hin'. by right.
      * apply elem_of_cons in Hin' as [?|?]; congruence.
Qed.

Lemma cell_insert_ne (r : gmap string value) (c c' : string) (v : value) :
  c ≠ c' → cell (<[c := v]> r) c' = cell r c'.
Proof. intros Hne. unfold cell. by rewrite lookup_insert_ne. Qed.

Lemma reindex_insert_ne (cols : list string) (r : gmap string value) c v :
  c ∉ cols → reindex cols (<[c := v]> r) = reindex cols r.
Proof.
  intros Hc. apply map_eq. intros k. rewrite !lookup_reindex.
  destruct (decide (k ∈ cols)) as [Hk|]; [|done].
  rewrite cell_insert_ne; [done|]. intros ->. done.
Qed.

Lemma filter_missing_nil (cols have : list string) :
  filter (λ c, c ∉ have) cols = [] ↔ cols ⊆ have.
Proof.
  induction cols as [|c cols IH]; simpl.
  - split; [intros _ x Hx; by apply elem_of_nil in Hx | done].
  - rewrite filter_cons. destruct (decide (c ∉ have)) as [Hc|Hc].
    + split; [done|]. intros Hsub. destruct Hc. apply Hsub. by left.
    + rewrite IH. apply dec_stable in Hc. split.
      * intros Hsub x [->|Hx]%elem_of_cons; [done|by apply Hsub].
      * intros Hsub x Hx. apply Hsub. by right.
Qed.

Lemma select_columns_ok (df : DataFrame) (cols : list string) :
  cols ⊆ columns df →
  select_columns df cols = ok (mkFrame cols (reindex cols <$> rows df)).
Proof.
  intros Hsub. unfold select_columns.
  by rewrite (proj2 (filter_missing_nil cols (columns df)) Hsub).
Qed.

Lemma select_columns_inv (df X : DataFrame) (cols : list string) :
  select_columns df cols = ok X →
  cols ⊆ columns df ∧ X = mkFrame cols (reindex cols <$> rows df).
Proof.
  unfold select_columns. intros H.
  destruct (filter _ cols) eqn:Hf; [|discriminate].
  apply filter_missing_nil in Hf. split; [done|]. by inversion H.
Qed.

Lemma zip_with_insert_length (c : string) (rs : list (gmap string value))
    (vs : list value) :
  length vs = length rs →
  length (zip_with (λ r v, <[c := v]> r) rs vs) = length rs.
Proof. intros H. rewrite length_zip_with. lia. Qed.

Lemma reindex_zip_with_insert (cols : list string) (c : string)
    (rs : list (gmap string value)) (vs : list value) :
  c ∉ cols → length vs = length rs →
  reindex cols <$> zip_with (λ r v, <[c := v]> r) rs vs = reindex cols <$> rs.
Proof.
  intros Hc. revert vs. induction rs as [|r rs IH]; intros [|v vs] Hlen;
    simpl in *; try done.
  rewrite reindex_insert_ne by done. f_equal. apply IH. lia.
Qed.

Lemma zip_with_insert_twice (c : string) (rs : list (gmap string value))
    (vs : list value) :
  zip_with (λ r v, <[c := v]> r) (zip_with (λ r v, <[c := v]> r) rs vs) vs
  = zip_with (λ r v, <[c := v]> r) rs vs.
Proof.
  revert vs. induction rs as [|r rs IH]; intros [|v vs]; simpl; try done.
  rewrite insert_insert_eq. f_equal. apply IH.
Qed.

Lemma set_column_inv (df df' : DataFrame) (c : string) (vs : list value) :
  set_column df c vs = ok df' →
  length vs = length (rows df) ∧
  columns df' = (if decide (c ∈ columns df) then columns df
                 else (columns df ++ [c])) ∧
  rows df' = zip_with (λ r v, <[c := v]> r) (rows df) vs.
Proof.
  unfold set_column. destruct (decide (length vs = _)); [|discriminate].
  intros H. inversion H. done.
Qed.

Lemma set_column_columns_elem (df df' : DataFrame) (c : string) vs :
  set_column df c vs = ok df' →
  c ∈ columns df' ∧ columns df ⊆ columns df'.
Proof.
  intros (_ & Hcols & _)%set_column_inv. rewrite Hcols.
  destruct (decide (c ∈ columns df)); [done|]. split.
  - apply elem_of_app. right. by left.
  - intros x Hx. apply elem_of_app. by left.
Qed.

Lemma security_not_feature : "Security" ∉ feature_cols.
Proof.
  unfold feature_cols. intros H.
  repeat (apply elem_of_cons in H as [H|H]; [discriminate H|]).
  by apply elem_of_nil in H.
Qed.

Lemma column1_inv (proba : list (list spec_float)) (p1 : list spec_float) :
  column1 proba = ok p1 →
  length p1 = length proba ∧
  ∀ i row, proba !! i = Some row → row !! 1%nat = p1 !! i.
Proof.
  revert p1. induction proba as [|row proba IH]; intros p1; simpl.
  - intros H. inversion H. split; [done|]. intros i row Hi.
    by rewrite lookup_nil in Hi.
  - destruct (row !! 1%nat) as [p|] eqn:Hrow; [|discriminate].
    destruct (column1 proba) as [e|ps] eqn:Hps; [discriminate|].
    intros H. inversion H. subst p1.
    destruct (IH ps eq_refl) as [Hlen Hnth]. split; [simpl; lia|].
    intros [|i] row' Hi; simpl in *.
    + inversion Hi. by subst.
    + by apply Hnth.
Qed.

Lemma cell_reindex (cols : list string) (r : gmap string value) (c : string) :
  c ∈ cols → cell (reindex cols r) c = cell r c.
Proof.
  intros Hc. unfold cell at 1. rewrite lookup_reindex.
  destruct (decide (c ∈ cols)); done.
Qed.

Lemma feature_frame_values (rs : list (gmap string value)) :
  frame_values (mkFrame feature_cols (reindex feature_cols <$> rs))
  = feature_vector <$> rs.
Proof.
  unfold frame_values. simpl. rewrite <- list_fmap_compose.
  apply list_fmap_ext. intros _ r _. simpl. unfold feature_vector.
  repeat (f_equal; [apply cell_reindex; set_solver|]). done.
Qed.

Section ScoringProperties.

Variable predict_proba : DataFrame → result (list (list spec_float)).
Variable round2 : spec_float → spec_float.

Lemma predict_inv (df df' : DataFrame) :
  predict predict_proba round2 df = ok df' →
  ∃ proba p1,
    feature_cols ⊆ columns df ∧
    predict_proba (mkFrame feature_cols (reindex feature_cols <$> rows df))
      = ok proba ∧
    column1 proba = ok p1 ∧
    set_column df "Security" (VFloat <$> (round2 <$> p1)) = ok df'.
Proof.
  unfold predict. intros H.
  destruct (select_columns df feature_cols) as [e|X] eqn:HX; [discriminate|].
  apply select_columns_inv in HX as [Hsub ->]. simpl in H.
  destruct (predict_proba _) as [e|proba] eqn:Hp; [discriminate|].
  simpl in H.
  destruct (column1 proba) as [e|p1] eqn:H1; [discriminate|].
  simpl in H. by exists proba, p1.
Qed.

Lemma predict_ok (df : DataFrame) proba p1 :
  feature_cols ⊆ columns df →
  predict_proba (mkFrame feature_cols (reindex feature_cols <$> rows df))
    = ok proba →
  column1 proba = ok p1 →
  predict predict_proba round2 df
  = set_column df "Security" (VFloat <$> (round2 <$> p1)).
Proof.
  intros Hsub Hp H1. unfold predict.
  rewrite (select_columns_ok _ _ Hsub). simpl. rewrite Hp. simpl.
  rewrite H1. done.
Qed.

Lemma predict_again (df df' : DataFrame) :
  predict predict_proba round2 df = ok df' →
  predict predict_proba round2 df' = ok df'.
Proof.
  intros (proba & p1 & Hsub & Hp & H1 & Hset)%predict_inv.
  pose proof (set_column_inv _ _ _ _ Hset) as (Hlen & Hcols & Hrows).
  pose proof (set_column_columns_elem _ _ _ _ Hset) as [Hsec Hincl].
  assert (Hfeat : reindex feature_cols <$> rows df'
                  = reindex feature_cols <$> rows df).
  { rewrite Hrows. apply reindex_zip_with_insert;
      [apply security_not_feature | done]. }
  rewrite (predict_ok df' proba p1); [| by etrans | by rewrite Hfeat | done].
  destruct df' as [cols' rows']. simpl in *. clear Hset Hfeat Hcols.
  unfold set_column. simpl. subst rows'.
  rewrite zip_with_insert_length by done.
  rewrite decide_True by done. rewrite decide_True by done.
  by rewrite zip_with_insert_twice.
Qed.

Lemma predict_nonempty (df df' : DataFrame) :
  predict predict_proba round2 df = ok df' →
  df_empty df = false → df_empty df' = false.
Proof.
  intros (proba & p1 & _ & _ & _ & Hset)%predict_inv.
  pose proof (set_column_inv _ _ _ _ Hset) as (Hlen & _ & Hrows).
  pose proof (set_column_columns_elem _ _ _ _ Hset) as [Hsec _].
  unfold df_empty. rewrite Hrows.
  destruct (columns df') as [|c cs]; [by apply elem_of_nil in Hsec|].
  destruct (columns df), (rows df) as [|r rs]; try done.
  destruct (VFloat <$> (round2 <$> p1)); [done|]. done.
Qed.

(** The scoring step on its own (l.227-242): when the classifier raises
    (or any other step of the [try] does), the exception is shown and the
    session state is exactly what it was, with whatever scores it held.
    What the view does after the step is [tab6]. *)
Theorem score_formations_failure_atomic (st : Session) :
  df_empty (formations st) = false →
  (∀ e, feature_cols ⊆ columns (formations st) →
        predict_proba
          (mkFrame feature_cols
             (reindex feature_cols <$> rows (formations st))) = raise e →
        score_formations predict_proba round2 st = (st, [ShownError e])) ∧
  (∀ e, predict predict_proba round2 (formations st) = raise e →
        score_formations predict_proba round2 st = (st, [ShownError e])).
Proof.
  intros Hne. split.
  - intros e Hsub Hp. unfold score_formations, predict. rewrite Hne.
    rewrite (select_columns_ok _ _ Hsub). simpl. rewrite Hp. done.
  - intros e He. unfold score_formations. rewrite Hne, He. done.
Qed.

(** C9: scoring twice in a row leaves the session as scoring once does,
    and shows the same. *)
Theorem score_formations_idempotent (st : Session) :
  score_formations predict_proba round2
    (score_formations predict_proba round2 st).1
  = score_formations predict_proba round2 st.
Proof.
  unfold score_formations at 2 3.
  destruct (df_empty (formations st)) eqn:Hempty.
  - simpl. unfold score_formations. by rewrite Hempty.
  - destruct (predict predict_proba round2 (formations st)) as [e|df'] eqn:Hp.
    + simpl. unfold score_formations. by rewrite Hempty, Hp.
    + simpl. unfold score_formations. simpl.
      rewrite (predict_nonempty _ _ Hp Hempty).
      by rewrite (predict_again _ _ Hp).
Qed.

(** C10: a scoring activation changes nothing but the Security column:
    the widget values, the number of records, their order and every cell
    under another column stay, and no other column appears or goes. *)
Theorem score_formations_frame (st : Session) :
  let st' := (score_formations predict_proba round2 st).1 in
  vals st' = vals st ∧
  length (rows (formations st')) = length (rows (formations st)) ∧
  (∀ i r, rows (formations st) !! i = Some r →
     ∃ r', rows (formations st') !! i = Some r' ∧
           ∀ c, c ≠ "Security" → r' !! c = r !! c) ∧
  (∀ c, c ≠ "Security" →
     c ∈ columns (formations st') ↔ c ∈ columns (formations st)).
Proof.
  unfold score_formations.
  destruct (df_empty (formations st)); simpl; [by eauto 10|].
  destruct (predict predict_proba round2 (formations st)) as [e|df'] eqn:Hp;
    simpl; [by eauto 10|].
  apply predict_inv in Hp as (proba & p1 & _ & _ & _ & Hset).
  apply set_column_inv in Hset as (Hlen & Hcols & Hrows).
  rewrite Hrows, Hcols. split_and!.
  - done.
  - by apply zip_with_insert_length.
  - intros i r Hi.
    destruct (lookup_lt_is_Some_2 (VFloat <$> (round2 <$> p1)) i) as [v Hv].
    { rewrite Hlen. by eapply lookup_lt_Some. }
    exists (<["Security" := v]> r). split.
    + rewrite lookup_zip_with, Hi, Hv. done.
    + intros c Hc. by rewrite lookup_insert_ne.
  - intros c Hc. destruct (decide (_ ∈ _)); [done|].
    rewrite elem_of_app, list_elem_of_singleton.
    split; [intros [?|?]; [done|congruence] | by left].
Qed.

(** C2: on a table that has the nine feature columns, the classifier is
    given, per record and in order, the cells Depth, Pressure,
    Temperature, CO2 Density, Storage Capacity, Fault, Seal Thickness,
    Reservoir Thickness, Stacked of the whole table, and each record gets
    as Security the rounded second entry (the positive class) of its
    row of probabilities. *)
Theorem score_formations_attaches (st : Session)
    (proba : list (list spec_float)) (p1 : list spec_float) :
  let df := formations st in
  let X_test := mkFrame feature_cols (reindex feature_cols <$> rows df) in
  df_empty df = false →
  feature_cols ⊆ columns df →
  predict_proba X_test = ok proba →
  column1 proba = ok p1 →
  length proba = length (rows df) →
  frame_values X_test = feature_vector <$> rows df ∧
  (∀ i row, proba !! i = Some row → p1 !! i = row !! 1%nat) ∧
  score_formations predict_proba round2 st =
    (mkSession (vals st)
       (mkFrame
          (if decide ("Security" ∈ columns df) then columns df
           else (columns df ++ ["Security"]))
          (zip_with (λ r p, <["Security" := VFloat (round2 p)]> r)
             (rows df) p1)),
     []).
Proof.
  intros df X_test Hne Hsub Hp H1 Hlen.
  destruct (column1_inv _ _ H1) as [Hlen1 Hnth].
  split_and!.
  - apply feature_frame_values.
  - intros i row Hi. symmetry. by apply Hnth.
  - unfold score_formations. fold df. rewrite Hne.
    rewrite (predict_ok df proba p1 Hsub Hp H1).
    unfold set_column. rewrite !length_fmap.
    rewrite decide_True by congruence.
    rewrite <- list_fmap_compose, zip_with_fmap_r. done.
Qed.

End ScoringProperties.

Lemma score_formations_failure_atomic_witness :
  let st := session_with true
              [<["Security" := VFloat (Prim2SF 0.5)]>
                 (example_row "Sleipner" (Prim2SF 4200) (Prim2SF 80))] in
  score_formations failing_pipeline (λ p, p) st
  = (st, [ShownError
            (ModelError "X has 9 features, but the pipeline is expecting 12")]).
Proof.
  intros st.
  refine (proj1 (score_formations_failure_atomic failing_pipeline (λ p, p)
                   st _) _ _ _).
  - reflexivity.
  - apply (bool_decide_unpack _). vm_compute. exact I.
  - reflexivity.
Defined.

Lemma score_formations_attaches_witness :
  let st := session_with false
              [example_row "Sleipner" (Prim2SF 4200) (Prim2SF 80);
               example_row "Snohvit" (Prim2SF 31) (Prim2SF 45)] in
  score_formations (constant_pipeline (Prim2SF 0.25) (Prim2SF 0.75))
    (λ p, p) st
  = (session_with true
       [<["Security" := VFloat (Prim2SF 0.75)]>
          (example_row "Sleipner" (Prim2SF 4200) (Prim2SF 80));
        <["Security" := VFloat (Prim2SF 0.75)]>
          (example_row "Snohvit" (Prim2SF 31) (Prim2SF 45))],
     []).
Proof.
  intros st.
  refine (proj2 (proj2
    (score_formations_attaches
       (constant_pipeline (Prim2SF 0.25) (Prim2SF 0.75)) (λ p, p) st
       [[Prim2SF 0.25; Prim2SF 0.75]; [Prim2SF 0.25; Prim2SF 0.75]]
       [Prim2SF 0.75; Prim2SF 0.75] _ _ _ _ _))).
  - reflexivity.
  - apply (bool_decide_unpack _). vm_compute. exact I.
  - reflexivity.
  - reflexivity.
  - reflexivity.
Defined.

(** ** Adding a formation *)

Lemma reindex_idemp (cols : list string) (r : gmap string value) :
  reindex cols (reindex cols r) = reindex cols r.
Proof.
  apply map_eq. intros k. rewrite !lookup_reindex.
  destruct (decide (k ∈ cols)); [|done]. by rewrite cell_reindex.
Qed.

Lemma reindex_list_to_map (d : list (string * value)) :
  reindex (d.*1) (list_to_map d) = list_to_map d.
Proof.
  apply map_eq. intros k. rewrite lookup_reindex.
  destruct (decide (k ∈ d.*1)) as [Hk|Hk].
  - unfold cell.
    destruct (list_to_map d !! k) as [v|] eqn:Hv; [done|].
    by apply not_elem_of_list_to_map in Hv.
  - symmetry. by apply not_elem_of_list_to_map.
Qed.

Lemma concat_record (df : DataFrame) (d : list (string * value)) :
  let cols := (columns df ++ filter (λ c, c ∉ columns df) (d.*1)) in
  concat df (frame_of_record d)
  = mkFrame cols
      ((reindex cols <$> rows df) ++ [reindex cols (list_to_map d)]).
Proof. unfold concat. simpl. by rewrite fmap_app. Qed.

(** The row added for a dict keeps every entry of the dict. *)
Lemma new_row_lookup (have : list string) (d : list (string * value)) c v :
  list_to_map (M := gmap string value) d !! c = Some v →
  reindex (have ++ filter (λ c, c ∉ have) (d.*1)) (list_to_map d) !! c
  = Some v.
Proof.
  intros Hv. rewrite lookup_reindex. unfold cell. rewrite Hv. simpl.
  destruct (decide (c ∈ _)) as [|Hn]; [done|]. destruct Hn.
  apply elem_of_app. destruct (decide (c ∈ have)); [by left|right].
  apply list_elem_of_filter. split; [done|].
  apply elem_of_list_to_map_2 in Hv.
  apply list_elem_of_fmap. by exists (c, v).
Qed.

Lemma add_current_formation_eq (st : Session) (faulted stacked : value) :
  vals st !! "faulted" = Some faulted →
  vals st !! "stacked" = Some stacked →
  add_current_formation st
  = ok (mkSession (vals st)
          (concat (formations st)
             (frame_of_record
                (new_entry st (flag_code faulted) (flag_code stacked))))).
Proof.
  intros Hf Hs. unfold add_current_formation, getattr. by rewrite Hf, Hs.
Qed.

Lemma add_current_formation_rows (st : Session) (faulted stacked : value) :
  vals st !! "faulted" = Some faulted →
  vals st !! "stacked" = Some stacked →
  ∃ st' cols,
    add_current_formation st = ok st' ∧
    vals st' = vals st ∧
    columns (formations st') = cols ∧
    columns (formations st) ⊆ cols ∧
    rows (formations st')
    = ((reindex cols <$> rows (formations st)) ++
       [reindex cols
          (list_to_map
             (new_entry st (flag_code faulted) (flag_code stacked)))]) ∧
    ∀ c v,
      list_to_map (M := gmap string value)
        (new_entry st (flag_code faulted) (flag_code stacked)) !! c = Some v →
      reindex cols
        (list_to_map (new_entry st (flag_code faulted) (flag_code stacked)))
        !! c = Some v.
Proof.
  intros Hf Hs. eexists _, _.
  split; [by apply add_current_formation_eq|].
  rewrite concat_record. cbn [columns rows formations vals].
  split_and!; try reflexivity.
  - intros x Hx. apply elem_of_app. by left.
  - intros c v. apply new_row_lookup.
Qed.

Lemma last_row_of_added (st st' : Session) (cols : list string)
    (r : gmap string value) :
  rows (formations st')
  = ((reindex cols <$> rows (formations st)) ++ [r]) →
  last (rows (formations st')) = Some r.
Proof. intros ->. apply last_snoc. Qed.

(** C5: in the record that "Add Formation" appends, CO2 density and
    reservoir thickness are the Tab 3 values when the session holds them
    and the Tab 2 values otherwise. *)
Theorem add_current_formation_prefers_tab3 (st : Session)
    (faulted stacked : value) :
  vals st !! "faulted" = Some faulted →
  vals st !! "stacked" = Some stacked →
  ∃ st' r,
    add_current_formation st = ok st' ∧
    last (rows (formations st')) = Some r ∧
    r !! "CO2 Density (kg/m3)" =
      Some (match vals st !! "co2_density_t3" with
            | Some v => v
            | None => default (VFloat F64.lit_0) (vals st !! "co2_density")
            end) ∧
    r !! "Reservoir Thickness (m)" =
      Some (match vals st !! "thickness_t3" with
            | Some v => v
            | None => default (VFloat F64.lit_0) (vals st !! "thickness")
            end).
Proof.
  intros Hf Hs.
  destruct (add_current_formation_rows st faulted stacked Hf Hs)
    as (st' & cols & Hadd & _ & _ & _ & Hrows & Hnew).
  eexists st', _. split; [exact Hadd|].
  split; [by eapply last_row_of_added|].
  split.
  - rewrite (Hnew "CO2 Density (kg/m3)" _ eq_refl). unfold get.
    by destruct (vals st !! "co2_density_t3").
  - rewrite (Hnew "Reservoir Thickness (m)" _ eq_refl). unfold get.
    by destruct (vals st !! "thickness_t3").
Qed.

Lemma add_current_formation_prefers_tab3_witness :
  ∃ st' r,
    add_current_formation (mkSession (example_inputs "Sleipner")
                             initial_formations) = ok st' ∧
    last (rows (formations st')) = Some r ∧
    r !! "CO2 Density (kg/m3)" = Some (VFloat (Prim2SF 700)) ∧
    r !! "Reservoir Thickness (m)" = Some (VFloat (Prim2SF 40)).
Proof.
  destruct (add_current_formation_prefers_tab3
              (mkSession (example_inputs "Sleipner") initial_formations)
              (VStr "Yes") VNone eq_refl eq_refl)
    as (st' & r & Hadd & Hlast & Hco2 & Hth).
  exists st', r. repeat split; assumption.
Defined.

(** C6: in the appended record a field whose widget key is missing is
    0.0 (the name: the empty string), without any error, and the flags
    are 1 for "Yes" and 0 for "No" or for a control with nothing
    selected. *)
Theorem add_current_formation_defaults (st : Session)
    (faulted stacked : value) :
  vals st !! "faulted" = Some faulted →
  vals st !! "stacked" = Some stacked →
  ∃ st' r,
    add_current_formation st = ok st' ∧
    last (rows (formations st')) = Some r ∧
    r !! "Name" = Some (default (VStr "") (vals st !! "reservoir_name")) ∧
    (∀ col key, (col, key) ∈ numeric_fields →
       r !! col = Some (default (VFloat F64.lit_0) (vals st !! key))) ∧
    (vals st !! "co2_density_t3" = None → vals st !! "co2_density" = None →
       r !! "CO2 Density (kg/m3)" = Some (VFloat F64.lit_0)) ∧
    (vals st !! "thickness_t3" = None → vals st !! "thickness" = None →
       r !! "Reservoir Thickness (m)" = Some (VFloat F64.lit_0)) ∧
    r !! "Fault" = Some (VInt (flag_code faulted)) ∧
    r !! "Stacked" = Some (VInt (flag_code stacked)) ∧
    flag_code (VStr "Yes") = 1%Z ∧
    flag_code (VStr "No") = 0%Z ∧
    flag_code VNone = 0%Z.
Proof.
  intros Hf Hs.
  destruct (add_current_formation_rows st faulted stacked Hf Hs)
    as (st' & cols & Hadd & _ & _ & _ & Hrows & Hnew).
  eexists st', _. split; [exact Hadd|].
  split; [by eapply last_row_of_added|].
  split_and!; try reflexivity.
  - exact (Hnew "Name" _ eq_refl).
  - intros col key Hin. unfold numeric_fields in Hin.
    repeat (apply elem_of_cons in Hin as [Heq|Hin];
            [injection Heq as -> ->; apply Hnew; reflexivity|]).
    by apply elem_of_nil in Hin.
  - intros H3 H2. rewrite (Hnew "CO2 Density (kg/m3)" _ eq_refl).
    unfold get. by rewrite H3, H2.
  - intros H3 H2. rewrite (Hnew "Reservoir Thickness (m)" _ eq_refl).
    unfold get. by rewrite H3, H2.
  - exact (Hnew "Fault" _ eq_refl).
  - exact (Hnew "Stacked" _ eq_refl).
Qed.

Lemma add_current_formation_defaults_witness :
  ∃ st' r,
    add_current_formation (mkSession blank_inputs initial_formations)
      = ok st' ∧
    last (rows (formations st')) = Some r ∧
    r !! "Name" = Some (VStr "") ∧
    r !! "Depth (m)" = Some (VFloat (Prim2SF 0)) ∧
    r !! "CO2 Density (kg/m3)" = Some (VFloat (Prim2SF 0)) ∧
    r !! "Fault" = Some (VInt 0) ∧
    r !! "Stacked" = Some (VInt 0).
Proof.
  destruct (add_current_formation_defaults
              (mkSession blank_inputs initial_formations)
              (VStr "No") VNone eq_refl eq_refl)
    as (st' & r & Hadd & Hlast & Hname & Hnum & Hco2 & _ & Hfault & Hst & _).
  exists st', r. split_and!; try assumption.
  - apply (Hnum "Depth (m)" "depth"). unfold numeric_fields. by left.
  - by apply Hco2.
Defined.

Lemma new_entry_keys (st : Session) (fault_code stacked_code : Z) :
  (new_entry st fault_code stacked_code).*1 = formation_columns.
Proof. reflexivity. Qed.

Lemma reindex_schema_record (d : list (string * value)) :
  d.*1 = formation_columns →
  reindex formation_columns (list_to_map d) = list_to_map d.
Proof. intros <-. apply reindex_list_to_map. Qed.

Lemma concat_schema (rs : list (gmap string value))
    (d : list (string * value)) :
  d.*1 = formation_columns →
  concat (mkFrame formation_columns rs) (frame_of_record d)
  = mkFrame formation_columns
      ((reindex formation_columns <$> rs) ++ [list_to_map d]).
Proof.
  intros Hd. rewrite concat_record. cbn [columns rows]. rewrite Hd.
  change (formation_columns ++ filter (λ c, c ∉ formation_columns)
                                 formation_columns)
    with formation_columns.
  by rewrite reindex_schema_record.
Qed.

Lemma concat_two_records (d1 d2 : list (string * value)) :
  d1.*1 = formation_columns → d2.*1 = formation_columns →
  concat (concat initial_formations (frame_of_record d1)) (frame_of_record d2)
  = mkFrame formation_columns [list_to_map d1; list_to_map d2].
Proof.
  intros H1 H2. unfold initial_formations.
  rewrite (concat_schema [] d1 H1).
  rewrite (concat_schema _ d2 H2).
  rewrite fmap_nil, app_nil_l, list_fmap_singleton.
  by rewrite (reindex_schema_record d1 H1).
Qed.

(** C7: "Add Formation" puts exactly one record after the ones the table
    holds, which keep their positions and cells, whatever names the table
    already has; on the table of a fresh session two additions give the
    two records in the order they were added. *)
Theorem add_current_formation_appends (st : Session)
    (faulted stacked : value)
    (vals2 : gmap string value) (faulted2 stacked2 : value) :
  vals st !! "faulted" = Some faulted →
  vals st !! "stacked" = Some stacked →
  vals2 !! "faulted" = Some faulted2 →
  vals2 !! "stacked" = Some stacked2 →
  ∃ st',
    add_current_formation st = ok st' ∧
    length (rows (formations st')) = S (length (rows (formations st))) ∧
    (∀ i r, rows (formations st) !! i = Some r →
       ∃ r', rows (formations st') !! i = Some r' ∧
             ∀ c, c ∈ columns (formations st) → r' !! c = Some (cell r c)) ∧
    (∃ r, rows (formations st') !! length (rows (formations st)) = Some r ∧
          r !! "Name" = Some (get st "reservoir_name" (VStr ""))) ∧
    (formations st = initial_formations →
     ∃ st'',
       add_current_formation (mkSession vals2 (formations st')) = ok st'' ∧
       formations st'' =
         mkFrame formation_columns
           [list_to_map
              (new_entry st (flag_code faulted) (flag_code stacked));
            list_to_map
              (new_entry (mkSession vals2 (formations st'))
                 (flag_code faulted2) (flag_code stacked2))]).
Proof.
  intros Hf Hs Hf2 Hs2.
  destruct (add_current_formation_rows st faulted stacked Hf Hs)
    as (st' & cols & Hadd & _ & Hcols & Hsub & Hrows & Hnew).
  exists st'. split; [exact Hadd|]. split_and!.
  - rewrite Hrows, length_app, length_fmap. simpl. lia.
  - intros i r Hi. exists (reindex cols r). split.
    + rewrite Hrows, lookup_app_l.
      * by rewrite list_lookup_fmap, Hi.
      * rewrite length_fmap. by eapply lookup_lt_Some.
    + intros c Hc. rewrite lookup_reindex.
      rewrite decide_True by (by apply Hsub). done.
  - eexists. split.
    + rewrite Hrows, lookup_app_r by (by rewrite length_fmap).
      rewrite length_fmap, Nat.sub_diag. reflexivity.
    + apply Hnew. reflexivity.
  - intros Hinit.
    rewrite (add_current_formation_eq st faulted stacked Hf Hs) in Hadd.
    injection Hadd as <-. cbn [formations].
    eexists. split.
    + by apply (add_current_formation_eq _ faulted2 stacked2).
    + cbn [formations vals]. rewrite Hinit.
      apply concat_two_records; apply new_entry_keys.
Qed.

Lemma add_current_formation_appends_witness :
  ∃ st' st'',
    add_current_formation
      (mkSession (example_inputs "Sleipner") initial_formations) = ok st' ∧
    add_current_formation
      (mkSession (example_inputs "Sleipner") (formations st')) = ok st'' ∧
    length (rows (formations st'')) = 2 ∧
    column_tolist (formations st'') "Name"
    = ok [VStr "Sleipner"; VStr "Sleipner"].
Proof.
  destruct (add_current_formation_appends
              (mkSession (example_inputs "Sleipner") initial_formations)
              (VStr "Yes") VNone (example_inputs "Sleipner")
              (VStr "Yes") VNone eq_refl eq_refl eq_refl eq_refl)
    as (st' & Hadd & _ & _ & _ & Htwo).
  destruct (Htwo eq_refl) as (st'' & Hadd2 & Hform).
  exists st', st''. rewrite Hform.
  repeat split; try assumption.
Defined.

(** ** The metrics of the selected formation *)

Lemma filter_first_match {A} (P : A → Prop) `{!∀ x, Decision (P x)}
    (pre : list A) (x : A) (post : list A) :
  Forall (λ y, ¬ P y) pre → P x →
  filter P (pre ++ x :: post) = x :: filter P post.
Proof.
  intros Hpre Hx. induction Hpre as [|y pre Hy _ IH]; simpl.
  - by rewrite filter_cons_True.
  - by rewrite filter_cons_False.
Qed.




(** * Further properties of the code *)

(** ** The sign of the derived capacity *)

Lemma not_negative_ge (x : spec_float) :
  F64.ge x F64.lit_0 = F64.not_negative x.
Proof. destruct x as [[]|[]| |[] m e]; reflexivity. Qed.

Lemma binary_round_aux_sign (s : bool) (m e : Z) (l : location) :
  match binary_round_aux prec emax s m e l with
  | S754_zero s' | S754_infinity s' | S754_finite s' _ _ => s' = s
  | S754_nan => True
  end.
Proof.
  unfold binary_round_aux.
  destruct (shr_fexp prec emax m e l) as [mrs' e'].
  destruct (shr_fexp prec emax _ e' loc_Exact) as [mrs'' e''].
  destruct (shr_m mrs''); [done| |done].
  by destruct (e'' <=? emax - prec)%Z.
Qed.

Lemma binary_round_aux_not_negative (m e : Z) (l : location) :
  F64.not_negative_or_nan (binary_round_aux prec emax false m e l) = true.
Proof.
  pose proof (binary_round_aux_sign false m e l) as H.
  destruct (binary_round_aux prec emax false m e l); by subst.
Qed.

Lemma mul_not_negative (x y : spec_float) :
  F64.not_negative_or_nan x = true → F64.not_negative_or_nan y = true →
  F64.not_negative_or_nan (x * y)%f64 = true.
Proof.
  destruct x as [sx|[]| |[] mx ex], y as [sy|[]| |[] my ey];
    try done; intros _ _; unfold F64.mul, SFmul; cbn [xorb];
    apply binary_round_aux_not_negative.
Qed.

Lemma div_not_negative (x : spec_float) (m : positive) (e : Z) :
  F64.not_negative_or_nan x = true →
  F64.not_negative_or_nan (x / S754_finite false m e)%f64 = true.
Proof.
  destruct x as [sx|[]| |[] mx ex]; try done; intros _.
  unfold F64.div, SFdiv.
  destruct (SFdiv_core_binary prec emax (Z.pos mx) ex (Z.pos m) e)
    as [[mz ez] lz].
  cbn [xorb]. apply binary_round_aux_not_negative.
Qed.

Lemma ge_zero_not_negative_or_nan (x : spec_float) :
  F64.ge x F64.lit_0 = true → F64.not_negative_or_nan x = true.
Proof.
  rewrite not_negative_ge. unfold F64.not_negative_or_nan. by intros ->.
Qed.

Lemma capacity_Mt_not_negative
    (area thickness porosity co2_density eff : spec_float) :
  F64.ge area F64.lit_0 = true →
  F64.ge thickness F64.lit_0 = true →
  F64.ge porosity F64.lit_0 = true →
  F64.ge co2_density F64.lit_0 = true →
  F64.ge eff F64.lit_0 = true →
  F64.not_negative_or_nan
    (capacity_Mt area thickness porosity co2_density eff) = true.
Proof.
  intros Ha Ht Hp Hc He. unfold capacity_Mt, F64.lit_100, F64.lit_1e6.
  apply div_not_negative.
  repeat first
    [ apply mul_not_negative | apply div_not_negative
    | by apply ge_zero_not_negative_or_nan ].
Qed.

(** X1: with inputs that are not negative, as the widgets' [min_value]
    demands, the capacity that the calculate action stores is never
    negative: it compares [>= 0.0], or it is NaN. *)
Theorem calculate_capacity_not_negative (st : Session)
    (area thickness porosity co2_density eff : spec_float) :
  vals st !! "area" = Some (VFloat area) →
  vals st !! "thickness" = Some (VFloat thickness) →
  vals st !! "porosity" = Some (VFloat porosity) →
  vals st !! "co2_density" = Some (VFloat co2_density) →
  vals st !! "eff_factor" = Some (VFloat eff) →
  F64.ge area F64.lit_0 = true →
  F64.ge thickness F64.lit_0 = true →
  F64.ge porosity F64.lit_0 = true →
  F64.ge co2_density F64.lit_0 = true →
  F64.ge eff F64.lit_0 = true →
  ∃ st' c,
    calculate_capacity st = ok st' ∧
    vals st' !! "storage_capacity" = Some (VFloat c) ∧
    (F64.ge c F64.lit_0 = true ∨ c = S754_nan).
Proof.
  intros Ha Ht Hp Hc He Na Nt Np Nc Ne.
  eexists _, _. split; [by apply calculate_capacity_eq|].
  split; [apply lookup_insert_eq|].
  pose proof (capacity_Mt_not_negative _ _ _ _ _ Na Nt Np Nc Ne) as H.
  rewrite not_negative_ge. unfold F64.not_negative_or_nan in H.
  destruct (capacity_Mt area thickness porosity co2_density eff)
    as [?|[]| |[] ? ?]; simpl in *; try discriminate; auto.
Qed.

Lemma calculate_capacity_not_negative_witness :
  ∃ st' c,
    calculate_capacity
      (tab2_inputs (Prim2SF 0) (Prim2SF 1e200) (Prim2SF 1e200) (Prim2SF 0)
         (Prim2SF 700) (Prim2SF 60)) = ok st' ∧
    vals st' !! "storage_capacity" = Some (VFloat c) ∧
    (F64.ge c F64.lit_0 = true ∨ c = S754_nan).
Proof.
  apply (calculate_capacity_not_negative
           (tab2_inputs (Prim2SF 0) (Prim2SF 1e200) (Prim2SF 1e200)
              (Prim2SF 0) (Prim2SF 700) (Prim2SF 60))
           (Prim2SF 1e200) (Prim2SF 1e200) (Prim2SF 0) (Prim2SF 700)
           (Prim2SF 60)); reflexivity.
Defined.

(** ** More on adding a formation *)

(** X2: calculating and then adding records the calculated capacity: the
    record appended after a calculate action holds, as Storage Capacity,
    the value of the formula on the inputs of Tab 2. *)
Theorem calculate_then_add_records_capacity (st : Session)
    (area thickness porosity co2_density eff : spec_float)
    (faulted stacked : value) :
  vals st !! "area" = Some (VFloat area) →
  vals st !! "thickness" = Some (VFloat thickness) →
  vals st !! "porosity" = Some (VFloat porosity) →
  vals st !! "co2_density" = Some (VFloat co2_density) →
  vals st !! "eff_factor" = Some (VFloat eff) →
  vals st !! "faulted" = Some faulted →
  vals st !! "stacked" = Some stacked →
  ∃ st1 st2 r,
    calculate_capacity st = ok st1 ∧
    add_current_formation st1 = ok st2 ∧
    last (rows (formations st2)) = Some r ∧
    r !! "Storage Capacity (Mt)" =
      Some (VFloat (capacity_Mt area thickness porosity co2_density eff)).
Proof.
  intros Ha Ht Hp Hc He Hf Hs.
  pose proof (calculate_capacity_eq st _ _ _ _ _ Ha Ht Hp Hc He) as Hcalc.
  set (st1 := set_val "storage_capacity"
                (VFloat (capacity_Mt area thickness porosity co2_density eff))
                st) in *.
  assert (Hf1 : vals st1 !! "faulted" = Some faulted).
  { unfold st1, set_val. cbn [vals]. by rewrite lookup_insert_ne. }
  assert (Hs1 : vals st1 !! "stacked" = Some stacked).
  { unfold st1, set_val. cbn [vals]. by rewrite lookup_insert_ne. }
  destruct (add_current_formation_rows st1 faulted stacked Hf1 Hs1)
    as (st2 & cols & Hadd & _ & _ & _ & Hrows & Hnew).
  exists st1, st2. eexists. split; [exact Hcalc|]. split; [exact Hadd|].
  split; [by eapply last_row_of_added|].
  rewrite (Hnew "Storage Capacity (Mt)" _ eq_refl).
  unfold get, st1, set_val. cbn [vals]. by rewrite lookup_insert_eq.
Qed.

Lemma calculate_then_add_records_capacity_witness :
  ∃ st1 st2 r,
    calculate_capacity
      (mkSession
         (<["faulted" := VStr "No"]> (<["stacked" := VNone]>
            (vals (tab2_inputs (Prim2SF 0) (Prim2SF 1e6) (Prim2SF 50)
                     (Prim2SF 20) (Prim2SF 700) (Prim2SF 60)))))
         initial_formations) = ok st1 ∧
    add_current_formation st1 = ok st2 ∧
    last (rows (formations st2)) = Some r ∧
    r !! "Storage Capacity (Mt)" = Some (VFloat (Prim2SF 4200)).
Proof.
  destruct (calculate_then_add_records_capacity
              (mkSession
                 (<["faulted" := VStr "No"]> (<["stacked" := VNone]>
                    (vals (tab2_inputs (Prim2SF 0) (Prim2SF 1e6) (Prim2SF 50)
                             (Prim2SF 20) (Prim2SF 700) (Prim2SF 60)))))
                 initial_formations)
              (Prim2SF 1e6) (Prim2SF 50) (Prim2SF 20) (Prim2SF 700)
              (Prim2SF 60) (VStr "No") VNone)
    as (st1 & st2 & r & H1 & H2 & H3 & H4);
    [reflexivity | reflexivity | reflexivity | reflexivity | reflexivity
    | reflexivity | reflexivity |].
  exists st1, st2, r. split_and!; assumption.
Defined.

(** X3: the callback fails exactly when one of the two segmented
    controls has no key in the session: it raises [AttributeError] for
    [faulted], or else for [stacked]; no other widget value, missing or
    of whatever type, makes it fail. *)
Theorem add_current_formation_fails_iff (st : Session) :
  ((∃ st', add_current_formation st = ok st') ↔
   is_Some (vals st !! "faulted") ∧ is_Some (vals st !! "stacked")) ∧
  (vals st !! "faulted" = None →
   add_current_formation st = raise (AttributeError "faulted")) ∧
  (is_Some (vals st !! "faulted") → vals st !! "stacked" = None →
   add_current_formation st = raise (AttributeError "stacked")).
Proof.
  unfold add_current_formation, getattr.
  destruct (vals st !! "faulted") as [f|] eqn:Hf,
           (vals st !! "stacked") as [s|] eqn:Hs; cbn.
  - split_and!; [|done|done]. split; [by eauto|]. intros _. by eexists.
  - split_and!; [|done|done].
    split; [by intros [? ?] | by intros [_ [? ?]]].
  - split_and!; [|done|by intros [? ?]].
    split; [by intros [? ?] | by intros [[? ?] _]].
  - split_and!; [|done|by intros [? ?]].
    split; [by intros [? ?] | by intros [[? ?] _]].
Qed.

Lemma flag_code_yes (v : value) :
  (v = VStr "Yes" → flag_code v = 1%Z) ∧
  (v ≠ VStr "Yes" → flag_code v = 0%Z).
Proof.
  unfold flag_code. split; [by intros ->|]. intros Hne.
  destruct v as [|s|z|f]; try reflexivity. simpl.
  destruct (String.eqb_spec s "Yes") as [->|]; done.
Qed.

(** X4: the Fault and Stacked codes of the appended record are 1 exactly
    when the control holds the string "Yes"; any other value (another
    spelling, a number, nothing selected) gives 0. *)
Theorem add_current_formation_flag_exact (st : Session)
    (faulted stacked : value) :
  vals st !! "faulted" = Some faulted →
  vals st !! "stacked" = Some stacked →
  ∃ st' r,
    add_current_formation st = ok st' ∧
    last (rows (formations st')) = Some r ∧
    (faulted = VStr "Yes" → r !! "Fault" = Some (VInt 1)) ∧
    (faulted ≠ VStr "Yes" → r !! "Fault" = Some (VInt 0)) ∧
    (stacked = VStr "Yes" → r !! "Stacked" = Some (VInt 1)) ∧
    (stacked ≠ VStr "Yes" → r !! "Stacked" = Some (VInt 0)).
Proof.
  intros Hf Hs.
  destruct (add_current_formation_rows st faulted stacked Hf Hs)
    as (st' & cols & Hadd & _ & _ & _ & Hrows & Hnew).
  eexists st', _. split; [exact Hadd|].
  split; [by eapply last_row_of_added|].
  pose proof (Hnew "Fault" _ eq_refl) as HF.
  pose proof (Hnew "Stacked" _ eq_refl) as HS.
  destruct (flag_code_yes faulted) as [F1 F0].
  destruct (flag_code_yes stacked) as [S1 S0].
  split_and!; intros H.
  - by rewrite HF, F1.
  - by rewrite HF, F0.
  - by rewrite HS, S1.
  - by rewrite HS, S0.
Qed.

Lemma add_current_formation_flag_exact_witness :
  ∃ st' r,
    add_current_formation
      (mkSession (<["faulted" := VStr "yes"]> (example_inputs "Sleipner"))
         initial_formations) = ok st' ∧
    last (rows (formations st')) = Some r ∧
    r !! "Fault" = Some (VInt 0) ∧ r !! "Stacked" = Some (VInt 0).
Proof.
  destruct (add_current_formation_flag_exact
              (mkSession
                 (<["faulted" := VStr "yes"]> (example_inputs "Sleipner"))
                 initial_formations)
              (VStr "yes") VNone)
    as (st' & r & Hadd & Hlast & _ & HF & _ & HS);
    [vm_compute; reflexivity | vm_compute; reflexivity |].
  exists st', r. split_and!; try assumption.
  - apply HF. discriminate.
  - apply HS. discriminate.
Defined.

(** X5: a formation added to a table that has other columns than the
    twelve of a record (Security after a scoring, or columns of an
    uploaded file) reads NaN under each of them, and a table that has the
    twelve columns keeps its columns as they are: a formation added after
    a scoring is in the table without a score. *)
Theorem add_current_formation_unscored (st : Session)
    (faulted stacked : value) :
  vals st !! "faulted" = Some faulted →
  vals st !! "stacked" = Some stacked →
  ∃ st' r,
    add_current_formation st = ok st' ∧
    last (rows (formations st')) = Some r ∧
    (∀ c, c ∈ columns (formations st) → c ∉ formation_columns →
          r !! c = Some NaN) ∧
    (formation_columns ⊆ columns (formations st) →
     columns (formations st') = columns (formations st)).
Proof.
  intros Hf Hs.
  rewrite (add_current_formation_eq st faulted stacked Hf Hs).
  rewrite concat_record. cbn [columns rows formations].
  eexists _, _. split; [reflexivity|]. cbn [formations rows columns].
  split; [apply last_snoc|]. split.
  - intros c Hc Hn. rewrite lookup_reindex.
    rewrite decide_True by (apply elem_of_app; by left).
    unfold cell.
    assert (Hnone : list_to_map (M := gmap string value)
                      (new_entry st (flag_code faulted) (flag_code stacked))
                    !! c = None).
    { apply not_elem_of_list_to_map. by rewrite new_entry_keys. }
    by rewrite Hnone.
  - intros Hsub. rewrite new_entry_keys.
    rewrite (proj2 (filter_missing_nil _ _) Hsub). apply app_nil_r.
Qed.

Lemma add_current_formation_unscored_witness :
  ∃ st' r,
    add_current_formation
      (mkSession (example_inputs "Snohvit")
         (formations
            (session_with true
               [scored_row "Sleipner" (Prim2SF 4200) (Prim2SF 80)
                  (Prim2SF 0.75)]))) = ok st' ∧
    last (rows (formations st')) = Some r ∧
    r !! "Security" = Some NaN ∧
    columns (formations st') = formation_columns ++ ["Security"].
Proof.
  destruct (add_current_formation_unscored
              (mkSession (example_inputs "Snohvit")
                 (formations
                    (session_with true
                       [scored_row "Sleipner" (Prim2SF 4200) (Prim2SF 80)
                          (Prim2SF 0.75)])))
              (VStr "Yes") VNone)
    as (st' & r & Hadd & Hlast & Hnan & Hcols);
    [vm_compute; reflexivity | vm_compute; reflexivity |].
  exists st', r. split_and!; try assumption.
  - apply Hnan; apply (bool_decide_unpack _); vm_compute; exact I.
  - apply Hcols. apply (bool_decide_unpack _). vm_compute. exact I.
Defined.

(** X6: on a table that lacks some of the twelve record columns (an
    uploaded file with another layout), adding a formation puts the
    lacking columns after the existing ones, in the order of the record,
    and every earlier row reads NaN under them. *)
Theorem add_current_formation_extends_columns (st : Session)
    (faulted stacked : value) :
  vals st !! "faulted" = Some faulted →
  vals st !! "stacked" = Some stacked →
  ∃ st',
    add_current_formation st = ok st' ∧
    columns (formations st') =
      columns (formations st) ++
      filter (λ c, c ∉ columns (formations st)) formation_columns ∧
    ∀ i r c,
      rows (formations st) !! i = Some r →
      c ∈ formation_columns → r !! c = None →
      ∃ r', rows (formations st') !! i = Some r' ∧ r' !! c = Some NaN.
Proof.
  intros Hf Hs.
  rewrite (add_current_formation_eq st faulted stacked Hf Hs).
  rewrite concat_record. cbn [columns rows formations].
  eexists. split; [reflexivity|]. cbn [formations rows columns].
  rewrite new_entry_keys. split; [reflexivity|].
  intros i r c Hi Hc Hnone. eexists. split.
  - rewrite lookup_app_l.
    + by rewrite list_lookup_fmap, Hi.
    + rewrite length_fmap. by eapply lookup_lt_Some.
  - rewrite lookup_reindex. unfold cell. rewrite Hnone. simpl.
    destruct (decide (c ∈ _)) as [|Hn]; [done|]. destruct Hn.
    apply elem_of_app.
    destruct (decide (c ∈ columns (formations st))); [by left|right].
    by apply list_elem_of_filter.
Qed.

Lemma add_current_formation_extends_columns_witness :
  ∃ st' r',
    add_current_formation
      (mkSession (example_inputs "Snohvit")
         (mkFrame ["Name"; "Latitude"]
            [list_to_map [("Name", VStr "Sleipner");
                          ("Latitude", VFloat (Prim2SF 58))]])) = ok st' ∧
    columns (formations st') =
      ["Name"; "Latitude"; "Depth (m)"; "P (MPa)"; "T (°C)";
       "CO2 Density (kg/m3)"; "Storage Capacity (Mt)"; "Fault";
       "Seal Thickness (m)"; "Reservoir Thickness (m)"; "Stacked";
       "Longitude"] ∧
    rows (formations st') !! 0%nat = Some r' ∧
    r' !! "Fault" = Some NaN.
Proof.
  destruct (add_current_formation_extends_columns
              (mkSession (example_inputs "Snohvit")
                 (mkFrame ["Name"; "Latitude"]
                    [list_to_map [("Name", VStr "Sleipner");
                                  ("Latitude", VFloat (Prim2SF 58))]]))
              (VStr "Yes") VNone)
    as (st' & Hadd & Hcols & Hold);
    [vm_compute; reflexivity | vm_compute; reflexivity |].
  destruct (Hold 0%nat _ "Fault" eq_refl) as (r' & Hr' & Hnan).
  - apply (bool_decide_unpack _). vm_compute. exact I.
  - vm_compute. reflexivity.
  - exists st', r'. split_and!; assumption.
Defined.

(** ** More on the scoring step *)

Lemma filter_missing_snoc (have cols : list string) (c : string) :
  c ∉ cols →
  filter (λ x, x ∉ have ++ [c]) cols = filter (λ x, x ∉ have) cols.
Proof.
  induction cols as [|x cols IH]; [done|]. intros Hc.
  apply not_elem_of_cons in Hc as [Hne Hc]. rewrite !filter_cons.
  rewrite (IH Hc).
  destruct (decide (x ∉ have ++ [c])) as [H1|H1],
           (decide (x ∉ have)) as [H2|H2]; try done.
  - destruct H1. apply dec_stable in H2. apply elem_of_app. by left.
  - destruct H1. intros [?|Hx]%elem_of_app; [done|].
    apply list_elem_of_singleton in Hx. congruence.
Qed.

Lemma zip_with_insert_over (c : string) (rs : list (gmap string value))
    (vs ws : list value) :
  length vs = length rs →
  zip_with (λ r v, <[c := v]> r) (zip_with (λ r v, <[c := v]> r) rs vs) ws
  = zip_with (λ r v, <[c := v]> r) rs ws.
Proof.
  revert vs ws. induction rs as [|r rs IH]; intros [|v vs] [|w ws] Hlen;
    simpl in *; try done.
  rewrite insert_insert_eq. f_equal. apply IH. lia.
Qed.

Lemma select_columns_set_column (df df2 : DataFrame) (c : string)
    (vs : list value) (cols : list string) :
  c ∉ cols → set_column df c vs = ok df2 →
  select_columns df2 cols = select_columns df cols.
Proof.
  intros Hc (Hlen & Hcols & Hrows)%set_column_inv. unfold select_columns.
  assert (Hf : filter (λ x, x ∉ columns df2) cols
               = filter (λ x, x ∉ columns df) cols).
  { rewrite Hcols. destruct (decide (c ∈ columns df)); [done|].
    by apply filter_missing_snoc. }
  rewrite Hf, Hrows. by rewrite reindex_zip_with_insert.
Qed.

Lemma set_column_set_column (df df2 : DataFrame) (c : string)
    (vs ws : list value) :
  set_column df c vs = ok df2 →
  set_column df2 c ws = set_column df c ws.
Proof.
  intros Hset.
  pose proof (set_column_columns_elem _ _ _ _ Hset) as [Hin _].
  apply set_column_inv in Hset as (Hlen & Hcols & Hrows).
  unfold set_column. rewrite Hrows, zip_with_insert_length by done.
  destruct (decide (length ws = length (rows df))); [|done].
  rewrite zip_with_insert_over by done.
  rewrite decide_True by done. by rewrite Hcols.
Qed.

Lemma column1_short_row (proba : list (list spec_float)) i row :
  proba !! i = Some row → length row < 2 →
  column1 proba = raise IndexError.
Proof.
  revert i. induction proba as [|r proba IH]; intros [|i] Hi Hlen;
    simpl in *; try done.
  - injection Hi as ->. by rewrite (lookup_ge_None_2 row 1) by lia.
  - destruct (r !! 1%nat); [|done]. by rewrite (IH i Hi Hlen).
Qed.

Section ScoringEdges.

Variable predict_proba : DataFrame → result (list (list spec_float)).
Variable round2 : spec_float → spec_float.

(** X7: the scores a table already carries play no part in a scoring:
    whatever stands in the Security column, stale scores or the NaN of
    formations added since, the step gives the same outcome as on the
    table with any other content in that column. *)
Theorem predict_ignores_old_scores (df df2 : DataFrame) (vs : list value) :
  set_column df "Security" vs = ok df2 →
  predict predict_proba round2 df2 = predict predict_proba round2 df.
Proof.
  intros Hset. unfold predict.
  rewrite (select_columns_set_column df df2 "Security" vs feature_cols
             security_not_feature Hset).
  destruct (select_columns df feature_cols) as [e|X]; [done|]. cbn.
  destruct (predict_proba X) as [e|proba]; [done|]. cbn.
  destruct (column1 proba) as [e|p1]; [done|]. cbn.
  by apply (set_column_set_column df df2 "Security" vs).
Qed.

(** X8: when the table lacks feature columns, the step shows a
    [KeyError] that lists the lacking ones in the order of the feature
    list, whatever the classifier is, and changes nothing. *)
Theorem score_formations_missing_features (st : Session) :
  df_empty (formations st) = false →
  ¬ feature_cols ⊆ columns (formations st) →
  ∃ missing,
    missing = filter (λ c, c ∉ columns (formations st)) feature_cols ∧
    missing ≠ [] ∧
    score_formations predict_proba round2 st
    = (st, [ShownError (KeyError missing)]).
Proof.
  intros Hne Hsub. eexists. split; [reflexivity|].
  destruct (filter (λ c, c ∉ columns (formations st)) feature_cols)
    as [|c missing] eqn:Hf.
  { destruct Hsub. by apply filter_missing_nil. }
  split; [done|].
  unfold score_formations, predict, select_columns. by rewrite Hne, Hf.
Qed.

(** X9: a classifier output of the wrong shape is caught like any other
    failure: a row of probabilities with fewer than two entries gives an
    [IndexError], a number of rows other than the number of records a
    [ValueError]; either is shown and the session is left as it was. *)
Theorem score_formations_bad_shape (st : Session)
    (proba : list (list spec_float)) :
  df_empty (formations st) = false →
  feature_cols ⊆ columns (formations st) →
  predict_proba
    (mkFrame feature_cols (reindex feature_cols <$> rows (formations st)))
    = ok proba →
  ((∃ i (row : list spec_float), proba !! i = Some row ∧ length row < 2) →
   score_formations predict_proba round2 st = (st, [ShownError IndexError])) ∧
  ((∀ row : list spec_float, row ∈ proba → (2 ≤ length row)%nat) →
   length proba ≠ length (rows (formations st)) →
   score_formations predict_proba round2 st = (st, [ShownError ValueError])).
Proof.
  intros Hne Hsub Hp. unfold score_formations, predict.
  rewrite Hne, (select_columns_ok _ _ Hsub). cbn. rewrite Hp. cbn. split.
  - intros (i & row & Hi & Hlen).
    by rewrite (column1_short_row proba i row Hi Hlen).
  - intros Hrows Hlen.
    destruct (column1 proba) as [e|p1] eqn:H1.
    + exfalso. clear Hp Hlen. induction proba as [|row proba IH]; [done|].
      simpl in H1. destruct (row !! 1%nat) eqn:Hrow.
      * destruct (column1 proba); [|done]. apply IH; [|done].
        intros r Hr. apply Hrows. by right.
      * apply lookup_ge_None in Hrow.
        pose proof (Hrows row ltac:(by left)). lia.
    + cbn. apply column1_inv in H1 as [Hl _].
      unfold set_column. rewrite !length_fmap.
      rewrite decide_False by congruence. done.
Qed.

End ScoringEdges.

Lemma predict_ignores_old_scores_witness :
  let stale := scored_row "Sleipner" (Prim2SF 4200) (Prim2SF 80)
                 (Prim2SF 0.25) in
  predict (constant_pipeline (Prim2SF 0.25) (Prim2SF 0.75)) (λ p, p)
    (mkFrame (formation_columns ++ ["Security"]) [<["Security" := NaN]> stale])
  = predict (constant_pipeline (Prim2SF 0.25) (Prim2SF 0.75)) (λ p, p)
      (mkFrame (formation_columns ++ ["Security"]) [stale]).
Proof.
  intros stale.
  apply (predict_ignores_old_scores
           (constant_pipeline (Prim2SF 0.25) (Prim2SF 0.75)) (λ p, p)
           (mkFrame (formation_columns ++ ["Security"]) [stale])
           (mkFrame (formation_columns ++ ["Security"])
              [<["Security" := NaN]> stale])
           [NaN]).
  reflexivity.
Defined.

Lemma score_formations_missing_features_witness :
  let st := mkSession ∅
              (mkFrame ["Name"; "Depth (m)"; "Fault"; "Stacked"]
                 [list_to_map [("Name", VStr "Sleipner");
                               ("Depth (m)", VFloat (Prim2SF 1500));
                               ("Fault", VInt 0); ("Stacked", VInt 1)]]) in
  ∃ missing,
    missing = ["P (MPa)"; "T (°C)"; "CO2 Density (kg/m3)";
               "Storage Capacity (Mt)"; "Seal Thickness (m)";
               "Reservoir Thickness (m)"] ∧
    missing ≠ [] ∧
    score_formations failing_pipeline (λ p, p) st
    = (st, [ShownError (KeyError missing)]).
Proof.
  intros st.
  destruct (score_formations_missing_features failing_pipeline (λ p, p) st)
    as (missing & Hm & Hne & Hscore).
  - reflexivity.
  - apply (bool_decide_unpack _). vm_compute. exact I.
  - exists missing. split; [|by split]. rewrite Hm. reflexivity.
Defined.

Lemma score_formations_bad_shape_witness :
  let st := session_with false
              [example_row "Sleipner" (Prim2SF 4200) (Prim2SF 80)] in
  score_formations (λ X, ok ((λ _, [Prim2SF 1]) <$> rows X)) (λ p, p) st
  = (st, [ShownError IndexError]).
Proof.
  intros st.
  refine (proj1 (score_formations_bad_shape
                   (λ X, ok ((λ _, [Prim2SF 1]) <$> rows X)) (λ p, p) st
                   [[Prim2SF 1]] _ _ _) _).
  - reflexivity.
  - apply (bool_decide_unpack _). vm_compute. exact I.
  - reflexivity.
  - exists 0%nat, [Prim2SF 1]. split; [reflexivity | simpl; lia].
Defined.

(** ** More on the Security Assessment view *)

Lemma first_match_scored (sel : value) (r : gmap string value)
    (post pre : list (gmap string value)) (vs : list value) (v : value) :
  vs !! length pre = Some v →
  Forall (λ r', py_eq (cell r' "Name") sel ≠ true) pre →
  py_eq (cell r "Name") sel = true →
  ∃ rest,
    filter (λ r', py_eq (cell r' "Name") sel = true)
      (zip_with (λ r' w, <["Security" := w]> r') (pre ++ r :: post) vs)
    = <["Security" := v]> r :: rest.
Proof.
  intros Hv Hpre Hr. revert vs Hv.
  induction Hpre as [|a pre Ha _ IH]; intros [|w vs] Hv; simpl in *;
    try done.
  - injection Hv as ->. eexists. rewrite filter_cons_True; [done|].
    by rewrite cell_insert_ne.
  - destruct (IH vs Hv) as [rest Hrest]. exists rest.
    rewrite filter_cons_False; [done|]. by rewrite cell_insert_ne.
Qed.

Lemma bind_ok_nil_app (m : result (list shown)) :
  (metrics ← m; ok ([] ++ metrics)) = m.
Proof. by destruct m. Qed.

Section ViewProperties.

Variable predict_proba : DataFrame → result (list (list spec_float)).
Variable round2 : spec_float → spec_float.
Variable format_2f : value → result string.

(** X10: a selection that Python takes as true and that equals the Name
    of no row (a NaN name from an uploaded file equals nothing, itself
    included) makes the metrics block raise [IndexError]; on a table
    without a Name column it raises [KeyError] for Name. *)
Theorem show_metrics_no_match (df : DataFrame) (selected_name : value) :
  py_truthy selected_name = true →
  ("Name" ∉ columns df →
   show_metrics format_2f df selected_name = raise (KeyError ["Name"])) ∧
  ("Name" ∈ columns df →
   Forall (λ r, py_eq (cell r "Name") selected_name ≠ true) (rows df) →
   show_metrics format_2f df selected_name = raise IndexError).
Proof.
  intros Ht. unfold show_metrics, select_rows_eq. rewrite Ht. split.
  - intros Hn. by rewrite decide_False.
  - intros Hn Hall. rewrite decide_True by done. cbn.
    replace (filter _ (rows df)) with (@nil (gmap string value)); [done|].
    symmetry. induction Hall as [|r rs Hr _ IH]; [done|].
    by rewrite filter_cons_False.
Qed.

(** X11: when the scoring fails on a table that never got a Security
    column, the view, after the caught failure, raises an uncaught
    [KeyError] for Security as soon as the selected name is not empty and
    matches a row; the session is left as it was. *)
Theorem tab6_unscored_failure (st : Session) (selected_name : value)
    (e : exn) (pre : list (gmap string value)) (r : gmap string value)
    (post : list (gmap string value)) :
  df_empty (formations st) = false →
  "Security" ∉ columns (formations st) →
  "Name" ∈ columns (formations st) →
  predict predict_proba round2 (formations st) = raise e →
  rows (formations st) = pre ++ r :: post →
  Forall (λ r', py_eq (cell r' "Name") selected_name ≠ true) pre →
  py_eq (cell r "Name") selected_name = true →
  py_truthy selected_name = true →
  tab6 predict_proba round2 format_2f selected_name st
  = (st, raise (KeyError ["Security"])).
Proof.
  intros Hne Hsec Hname He Hrows Hpre Hr Ht.
  unfold tab6, score_formations. rewrite Hne, He. f_equal.
  unfold column_tolist. rewrite decide_True by done. cbn.
  unfold show_metrics, select_rows_eq. rewrite Ht, decide_True by done.
  rewrite Hrows, (filter_first_match _ pre r post Hpre Hr). cbn.
  unfold series_get. cbn.
  by destruct (decide ("Security" ∈ columns (formations st))).
Qed.

(** X12: after a successful scoring the Security metric shown for the
    selected name is the score computed in this very activation for the
    first row of that name: the rounded second probability of that row,
    formatted, beside the row's capacity and seal thickness. *)
Theorem tab6_shows_fresh_score (st : Session) (selected_name : value)
    (proba : list (list spec_float)) (p1 : list spec_float)
    (pre : list (gmap string value)) (r : gmap string value)
    (post : list (gmap string value)) (p : spec_float) :
  df_empty (formations st) = false →
  feature_cols ⊆ columns (formations st) →
  "Name" ∈ columns (formations st) →
  "Storage Capacity (Mt)" ∈ columns (formations st) →
  "Seal Thickness (m)" ∈ columns (formations st) →
  predict_proba
    (mkFrame feature_cols (reindex feature_cols <$> rows (formations st)))
    = ok proba →
  column1 proba = ok p1 →
  length proba = length (rows (formations st)) →
  rows (formations st) = pre ++ r :: post →
  Forall (λ r', py_eq (cell r' "Name") selected_name ≠ true) pre →
  py_eq (cell r "Name") selected_name = true →
  py_truthy selected_name = true →
  p1 !! length pre = Some p →
  tab6 predict_proba round2 format_2f selected_name st
  = ((score_formations predict_proba round2 st).1,
     security ← format_2f (VFloat (round2 p));
     capacity ← format_2f (cell r "Storage Capacity (Mt)");
     seal ← format_2f (cell r "Seal Thickness (m)");
     ok [ShownMetrics security capacity seal]).
Proof.
  intros Hne Hsub Hname Hcap Hseal Hp H1 Hlen Hrows Hpre Hr Ht Hp1.
  destruct (column1_inv _ _ H1) as [Hlen1 _].
  unfold tab6, score_formations. rewrite Hne.
  rewrite (predict_ok predict_proba round2 _ proba p1 Hsub Hp H1).
  destruct (set_column (formations st) "Security" _) as [e|df'] eqn:Hset.
  { unfold set_column in Hset. rewrite !length_fmap in Hset.
    rewrite decide_True in Hset by congruence. done. }
  pose proof (set_column_columns_elem _ _ _ _ Hset) as [Hsec Hincl].
  apply set_column_inv in Hset as (_ & _ & Hrows').
  cbn [fst formations]. f_equal.
  unfold column_tolist. rewrite decide_True by (by apply Hincl). cbn.
  rewrite bind_ok_nil_app.
  unfold show_metrics, select_rows_eq. rewrite Ht.
  rewrite decide_True by (by apply Hincl). cbn.
  destruct (first_match_scored selected_name r post pre
              (VFloat <$> (round2 <$> p1)) (VFloat (round2 p)))
    as [rest Hrest]; [| done | done |].
  { by rewrite !list_lookup_fmap, Hp1. }
  rewrite Hrows', Hrows, Hrest. cbn.
  unfold series_get. cbn.
  rewrite !decide_True by (by apply Hincl || done). cbn.
  destruct (decide ("Security" ∈ columns df')); [|done].
  rewrite !cell_insert_ne by done.
  replace (cell (<["Security" := VFloat (round2 p)]> r) "Security")
    with (VFloat (round2 p)); [done|].
  unfold cell. by rewrite lookup_insert_eq.
Qed.

End ViewProperties.

Lemma show_metrics_no_match_witness :
  show_metrics format_2f_stub
    (mkFrame (formation_columns ++ ["Security"])
       [<["Name" := NaN]>
          (scored_row "" (Prim2SF 31) (Prim2SF 45) (Prim2SF 0.5))])
    NaN
  = raise IndexError.
Proof.
  refine (proj2 (show_metrics_no_match format_2f_stub _ NaN _) _ _).
  - reflexivity.
  - apply (bool_decide_unpack _). vm_compute. exact I.
  - constructor; [intros H; vm_compute in H; discriminate H | constructor].
Defined.

Lemma tab6_unscored_failure_witness :
  let st := session_with false
              [example_row "Sleipner" (Prim2SF 4200) (Prim2SF 80)] in
  tab6 failing_pipeline (λ p, p) format_2f_stub (VStr "Sleipner") st
  = (st, raise (KeyError ["Security"])).
Proof.
  intros st.
  refine (tab6_unscored_failure failing_pipeline (λ p, p) format_2f_stub st
            (VStr "Sleipner")
            (ModelError "X has 9 features, but the pipeline is expecting 12")
            [] (example_row "Sleipner" (Prim2SF 4200) (Prim2SF 80)) []
            _ _ _ _ _ _ _ _).
  - reflexivity.
  - apply (bool_decide_unpack _). vm_compute. exact I.
  - apply (bool_decide_unpack _). vm_compute. exact I.
  - reflexivity.
  - reflexivity.
  - constructor.
  - reflexivity.
  - reflexivity.
Defined.

Lemma tab6_shows_fresh_score_witness :
  let first := example_row "Snohvit" (Prim2SF 31) (Prim2SF 45) in
  let st := session_with false
              [example_row "Sleipner" (Prim2SF 4200) (Prim2SF 80);
               first;
               example_row "Snohvit" (Prim2SF 12) (Prim2SF 7)] in
  (tab6 (constant_pipeline (Prim2SF 0.25) (Prim2SF 0.75)) (λ p, p)
     format_2f_stub (VStr "Snohvit") st).2
  = ok [ShownMetrics "6755399441055744p-53" "8725724278030336p-48"
          "6333186975989760p-47"].
Proof.
  intros first st.
  rewrite (tab6_shows_fresh_score
             (constant_pipeline (Prim2SF 0.25) (Prim2SF 0.75)) (λ p, p)
             format_2f_stub st (VStr "Snohvit")
             [[Prim2SF 0.25; Prim2SF 0.75]; [Prim2SF 0.25; Prim2SF 0.75];
              [Prim2SF 0.25; Prim2SF 0.75]]
             [Prim2SF 0.75; Prim2SF 0.75; Prim2SF 0.75]
             [example_row "Sleipner" (Prim2SF 4200) (Prim2SF 80)]
             first
             [example_row "Snohvit" (Prim2SF 12) (Prim2SF 7)]
             (Prim2SF 0.75)).
  - reflexivity.
  - reflexivity.
  - apply (bool_decide_unpack _). vm_compute. exact I.
  - apply (bool_decide_unpack _). vm_compute. exact I.
  - apply (bool_decide_unpack _). vm_compute. exact I.
  - apply (bool_decide_unpack _). vm_compute. exact I.
  - reflexivity.
  - reflexivity.
  - reflexivity.
  - reflexivity.
  - constructor; [intros H; vm_compute in H; discriminate H | constructor].
  - reflexivity.
  - reflexivity.
  - reflexivity.
Defined.

(** ** The uploaded table and the map *)

Lemma df_empty_no_rows (df : DataFrame) : rows df = [] → df_empty df = true.
Proof. unfold df_empty. intros ->. by destruct (columns df). Qed.

Section MapProperties.

Variable predict_proba : DataFrame → result (list (list spec_float)).
Variable round2 : spec_float → spec_float.
Variable format_2f : value → result string.

(** X13: an uploaded table without rows replaces the formations, and
    the views then show their notices only: the Security Assessment view
    shows "No formations added yet" whatever is selected, nothing is
    scored, and the map is not drawn. *)
Theorem upload_empty_table (st : Session) (csv : DataFrame)
    (selected_name : value) :
  rows csv = [] →
  let st' := upload_override (Some csv) st in
  formations st' = csv ∧ vals st' = vals st ∧
  tab6 predict_proba round2 format_2f selected_name st'
  = (st', ok [ShownInfo
                "No formations added yet. Please add formations in the Summary tab."]) ∧
  score_formations predict_proba round2 st' = (st', []) ∧
  tab7_guard (formations st') = false.
Proof.
  intros Hrows st'. pose proof (df_empty_no_rows csv Hrows) as He.
  unfold tab6, score_formations, tab7_guard. subst st'. cbn.
  by rewrite He.
Qed.


End MapProperties.

Lemma upload_empty_table_witness :
  let st := session_with true
              [scored_row "Sleipner" (Prim2SF 4200) (Prim2SF 80)
                 (Prim2SF 0.75)] in
  let st' := upload_override (Some (mkFrame formation_columns [])) st in
  tab6 failing_pipeline (λ p, p) format_2f_stub (VStr "Sleipner") st'
  = (st', ok [ShownInfo
                "No formations added yet. Please add formations in the Summary tab."]) ∧
  tab7_guard (formations st') = false.
Proof.
  intros st st'.
  destruct (upload_empty_table failing_pipeline (λ p, p) format_2f_stub st
              (mkFrame formation_columns []) (VStr "Sleipner") eq_refl)
    as (_ & _ & Htab6 & _ & Hmap).
  split; assumption.
Defined.

(** ** The colour bands are ordered *)

Lemma ge_trans_finite (c : spec_float) (s1 s2 : spec_float) :
  (∃ m e, c = S754_finite false m e) →
  F64.ge s1 c = true → F64.ge s2 s1 = true → F64.ge s2 c = true.
Proof.
  intros (mc & ec & ->). unfold F64.ge, SFleb.
  destruct s1 as [x|[]| |[] m1 e1]; simpl; try done;
    destruct s2 as [y|[]| |[] m2 e2]; simpl; try done.
  change (Pos.compare_cont Eq mc m1) with (Pos.compare mc m1).
  change (Pos.compare_cont Eq m1 m2) with (Pos.compare m1 m2).
  change (Pos.compare_cont Eq mc m2) with (Pos.compare mc m2).
  destruct (Z.compare_spec ec e1) as [E1|E1|E1];
    destruct (Z.compare_spec e1 e2) as [E2|E2|E2];
    destruct (Z.compare_spec ec e2) as [E3|E3|E3];
    try done; try (exfalso; lia).
  destruct (Pos.compare_spec mc m1) as [P1|P1|P1];
    destruct (Pos.compare_spec m1 m2) as [P2|P2|P2];
    destruct (Pos.compare_spec mc m2) as [P3|P3|P3];
    try done; try (exfalso; lia).
Qed.

(** X15: the colour never gets worse as the score grows: when one score
    is at least another, it is green whenever the other is, and the
    other is red whenever it is. *)
Theorem security_to_color_monotone (s1 s2 : spec_float) :
  F64.ge s2 s1 = true →
  (security_to_color s1 = [0; 200; 0]%Z →
   security_to_color s2 = [0; 200; 0]%Z) ∧
  (security_to_color s2 = [200; 0; 0]%Z →
   security_to_color s1 = [200; 0; 0]%Z).
Proof.
  intros Hle. unfold security_to_color.
  pose proof (ge_trans_finite F64.lit_0_9 s1 s2
                ltac:(by eexists _, _)) as H9.
  pose proof (ge_trans_finite F64.lit_0_5 s1 s2
                ltac:(by eexists _, _)) as H5.
  destruct (F64.ge s1 F64.lit_0_9) eqn:E19.
  - rewrite (H9 eq_refl Hle). done.
  - destruct (F64.ge s1 F64.lit_0_5) eqn:E15.
    + rewrite (H5 eq_refl Hle). split; [done|].
      by destruct (F64.ge s2 F64.lit_0_9).
    + split; [done|]. done.
Qed.

Lemma security_to_color_monotone_witness :
  (security_to_color (Prim2SF 0.9) = [0; 200; 0]%Z →
   security_to_color (Prim2SF 0.95) = [0; 200; 0]%Z) ∧
  (security_to_color (Prim2SF 0.95) = [200; 0; 0]%Z →
   security_to_color (Prim2SF 0.9) = [200; 0; 0]%Z).
Proof.
  apply (security_to_color_monotone (Prim2SF 0.9) (Prim2SF 0.95)).
  vm_compute. reflexivity.
Defined.

(** ** The repeated inputs of Tab 3 *)

Lemma tab3_value_get (st : Session) (key_t3 key_t2 : string) :
  tab3_value st key_t3 key_t2
  = ok (get st key_t3 (get st key_t2 (VFloat F64.lit_0))).
Proof.
  unfold tab3_value, getattr, get.
  destruct (vals st !! key_t3) as [v|] eqn:H3.
  - by rewrite decide_False.
  - by rewrite decide_True.
Qed.

(** X16: the value the Tab 3 inputs for CO2 density and thickness start
    from never fails to be read and is the value the snapshot records:
    what "Add Formation" stores under CO2 Density and Reservoir Thickness
    is what Tab 3 shows for them. *)
Theorem tab3_value_is_recorded (st : Session) (faulted stacked : value) :
  vals st !! "faulted" = Some faulted →
  vals st !! "stacked" = Some stacked →
  ∃ st' r co2 thickness,
    tab3_value st "co2_density_t3" "co2_density" = ok co2 ∧
    tab3_value st "thickness_t3" "thickness" = ok thickness ∧
    add_current_formation st = ok st' ∧
    last (rows (formations st')) = Some r ∧
    r !! "CO2 Density (kg/m3)" = Some co2 ∧
    r !! "Reservoir Thickness (m)" = Some thickness.
Proof.
  intros Hf Hs.
  destruct (add_current_formation_rows st faulted stacked Hf Hs)
    as (st' & cols & Hadd & _ & _ & _ & Hrows & Hnew).
  eexists st', _, _, _.
  split; [apply tab3_value_get|]. split; [apply tab3_value_get|].
  split; [exact Hadd|]. split; [by eapply last_row_of_added|].
  split; apply Hnew; reflexivity.
Qed.

Lemma tab3_value_is_recorded_witness :
  ∃ st' r,
    tab3_value (mkSession (example_inputs "Sleipner") initial_formations)
      "thickness_t3" "thickness" = ok (VFloat (Prim2SF 40)) ∧
    add_current_formation
      (mkSession (example_inputs "Sleipner") initial_formations) = ok st' ∧
    last (rows (formations st')) = Some r ∧
    r !! "Reservoir Thickness (m)" = Some (VFloat (Prim2SF 40)).
Proof.
  destruct (tab3_value_is_recorded
              (mkSession (example_inputs "Sleipner") initial_formations)
              (VStr "Yes") VNone)
    as (st' & r & co2 & th & _ & Hth & Hadd & Hlast & _ & Hr);
    [vm_compute; reflexivity | vm_compute; reflexivity |].
  assert (Hv : th = VFloat (Prim2SF 40)).
  { rewrite tab3_value_get in Hth. injection Hth as <-.
    vm_compute. reflexivity. }
  subst th. exists st', r. split_and!; assumption.
Defined.

(** ** The column names stay distinct *)

Lemma formation_columns_NoDup : NoDup formation_columns.
Proof. apply (bool_decide_unpack _). vm_compute. exact I. Qed.

Lemma concat_columns_NoDup (have new : list string) :
  NoDup have → NoDup new →
  NoDup (have ++ filter (λ c, c ∉ have) new).
Proof.
  intros Hh Hn. apply NoDup_app. split; [done|]. split.
  - intros x Hx [Hnx _]%list_elem_of_filter. done.
  - by apply NoDup_filter.
Qed.

(** X17: the column names of the table stay distinct: if they are
    before "Add Formation" or before a scoring step, they are after it;
    in particular Security is never added a second time. *)
Theorem columns_stay_distinct
    (predict_proba : DataFrame → result (list (list spec_float)))
    (round2 : spec_float → spec_float) (st : Session) :
  NoDup (columns (formations st)) →
  (∀ st', add_current_formation st = ok st' →
          NoDup (columns (formations st'))) ∧
  NoDup (columns (formations (score_formations predict_proba round2 st).1)).
Proof.
  intros Hnd. split.
  - intros st' Hadd. unfold add_current_formation, getattr in Hadd.
    destruct (vals st !! "faulted"); [|done].
    destruct (vals st !! "stacked"); [|done].
    cbn in Hadd. injection Hadd as <-. cbn [formations].
    rewrite concat_record. cbn [columns]. rewrite new_entry_keys.
    apply concat_columns_NoDup; [done | apply formation_columns_NoDup].
  - unfold score_formations.
    destruct (df_empty (formations st)); [done|].
    destruct (predict predict_proba round2 (formations st)) as [e|df'] eqn:Hp;
      [done|]. cbn.
    apply predict_inv in Hp as (proba & p1 & _ & _ & _ & Hset).
    apply set_column_inv in Hset as (_ & -> & _).
    destruct (decide ("Security" ∈ columns (formations st))); [done|].
    apply NoDup_app. split; [done|]. split.
    + intros x Hx Hs%list_elem_of_singleton. by subst.
    + apply NoDup_singleton.
Qed.

Lemma columns_stay_distinct_witness :
  NoDup (columns (formations
    (score_formations (constant_pipeline (Prim2SF 0.25) (Prim2SF 0.75))
       (λ p, p)
       (session_with true
          [scored_row "Sleipner" (Prim2SF 4200) (Prim2SF 80)
             (Prim2SF 0.5)])).1)).
Proof.
  refine (proj2 (columns_stay_distinct _ _ _ _)).
  apply (bool_decide_unpack _). vm_compute. exact I.
Defined.

(** ** A failed first scoring *)

(** C3, at the failing input: one formation that was never scored, a
    classifier that raises, and the formation's name selected. The scoring
    step catches the failure, shows it and leaves the table as it was; the
    view then reads the Security cell of the selected row (l.259) on a
    table that has no such column and ends in an uncaught [KeyError].
    Tab 7 asks for the column first (l.277) and only shows its notice. *)
Theorem tab6_failed_first_scoring_raises :
  let st := session_with false
              [example_row "Sleipner" (Prim2SF 4200) (Prim2SF 80)] in
  (score_formations failing_pipeline (λ p, p) st).2
  = [ShownError
       (ModelError "X has 9 features, but the pipeline is expecting 12")] ∧
  formations (score_formations failing_pipeline (λ p, p) st).1
  = formations st ∧
  (tab6 failing_pipeline (λ p, p) format_2f_stub (VStr "Sleipner") st).2
  = raise (KeyError ["Security"]) ∧
  tab7_guard (formations st) = false.
Proof.
  intros st. split_and!.
  - reflexivity.
  - reflexivity.
  - vm_compute. reflexivity.
  - reflexivity.
Qed.
